(** * BlindVision web assistant: the turn-taking controller of [web/app.js]

    A shallow embedding of class [BlindVisionApp] (file [web/app.js]): the
    fields that arbitrate the microphone and the speaker, the event
    handlers that read and write them, and the browser facilities they call
    (speech recognition, audio elements, speech synthesis, timers, fetch).

    The handlers are JavaScript methods returning nothing, run to completion
    on a single thread: each is a function [World -> World].  An [async]
    method is cut at its [await]s; the part after an [await] is a handler of
    its own, run by a timer or by the event that resolves the promise.

    A [World] holds the fields of the object, the state of the browser as
    far as the program can tell it apart (is the recogniser started, which
    audios play, what the synthesiser speaks, which requests and timers are
    pending), the clock in milliseconds, and the log of the calls made to
    the browser.  What the browser does on its side is taken from the Web
    Speech and HTML media interfaces:
    - [recognition.start()] throws when recognition is started already, and
      [recognition.stop()] is followed by an [end] event;
    - [speechSynthesis.cancel()] silences the utterance without an event;
    - an Audio that is paused with its handlers removed fires nothing more;
    - [speechSynthesis] exists, and the camera works ([startCamera] speaks
      only when it fails).
    The text of the welcome, of the answers and of the errors is kept as in
    the source; logging and the status indicator are left out. *)

From Stdlib Require Import String Ascii List Bool Arith PeanoNat NArith Lia.
Import ListNotations.
Local Open Scope string_scope.
Local Open Scope list_scope.
Local Open Scope nat_scope.

(** ** JavaScript string operations used by [recognition.onresult] *)

(** [c.toLowerCase()] on the ASCII range: 'A'..'Z' move to 'a'..'z'. *)
Definition lowerChar (c : ascii) : ascii :=
  let n := nat_of_ascii c in
  if (65 <=? n) && (n <=? 90) then ascii_of_nat (n + 32) else c.

Fixpoint toLowerCase (s : string) : string :=
  match s with
  | EmptyString => EmptyString
  | String c r => String (lowerChar c) (toLowerCase r)
  end.

Definition isSpace (c : ascii) : bool := Ascii.eqb c " "%char.

(** [s.split(' ')]: the pieces between single space characters; an empty
    string gives one empty piece, two adjacent spaces an empty piece. *)
Fixpoint split (s : string) : list string :=
  match s with
  | EmptyString => [EmptyString]
  | String c r =>
      if isSpace c then EmptyString :: split r
      else match split r with
           | p :: ps => String c p :: ps
           | [] => [String c EmptyString]
           end
  end.

(** [s.includes(sub)]: [sub] occurs in [s] as a contiguous substring. *)
Fixpoint includes (s sub : string) : bool :=
  String.prefix sub s
  || match s with
     | EmptyString => false
     | String _ r => includes r sub
     end.

(** [words.includes(q)] on an array of strings. *)
Definition arrayIncludes (words : list string) (q : string) : bool :=
  existsb (String.eqb q) words.

(** White space removed by [trim()], on the ASCII range. *)
Definition isWhite (c : ascii) : bool :=
  let n := nat_of_ascii c in
  (n =? 32) || ((9 <=? n) && (n <=? 13)).

Fixpoint trimStart (s : string) : string :=
  match s with
  | EmptyString => EmptyString
  | String c r => if isWhite c then trimStart r else s
  end.

Fixpoint trimEnd (s : string) : string :=
  match s with
  | EmptyString => EmptyString
  | String c r =>
      match trimEnd r with
      | EmptyString => if isWhite c then EmptyString else String c EmptyString
      | r' => String c r'
      end
  end.

Definition trim (s : string) : string := trimEnd (trimStart s).

(** ** The utterance filter, lines 125-135 of [recognition.onresult] *)

Definition questionWords : list string :=
  ["where"; "what"; "how"; "can"; "do"; "is"; "find"; "see"; "help";
   "color"; "glasses"; "backpack"; "bag"].

(** [const words = transcript.toLowerCase().split(' ')]. *)
Definition wordsOf (transcript : string) : list string :=
  split (toLowerCase transcript).

(** [questionWords.some(q => words.includes(q))]. *)
Definition hasQuestionWord (transcript : string) : bool :=
  existsb (arrayIncludes (wordsOf transcript)) questionWords.

(** The three [includes] tests joined by [||]. *)
Definition isEcho (transcript : string) : bool :=
  includes (toLowerCase transcript) "the person on the left"
  || includes (toLowerCase transcript) "wearing glasses and"
  || includes (toLowerCase transcript) "room with".

(** The condition of the [if] on line 135. *)
Definition acceptsTranscript (transcript : string) : bool :=
  negb (isEcho transcript)
  && ((3 <? length (wordsOf transcript))
      || (hasQuestionWord transcript && (1 <? length (wordsOf transcript)))).

(** ** The browser, as far as the controller uses it *)

(** The speech recogniser: [start()] opens the microphone, [stop()] closes it
    and leaves the [end] event owed.  While it is running or stopping,
    [start()] throws an InvalidStateError saying that recognition has
    already started. *)
Inductive RecState := RecIdle | RecRunning | RecStopping.

(** How [recognition.start()] returns: normally, or by throwing an error
    whose message does or does not contain 'already started'. *)
Inductive StartResult := Started | ThrowsAlreadyStarted | ThrowsOther.

(** [window.SpeechRecognition || window.webkitSpeechRecognition]: present,
    absent, or present with a constructor that throws. *)
Inductive Support := SrAvailable | SrMissing | SrThrows.

(** The callbacks the program hands to [setTimeout] and [setInterval], and
    the rest of [speak] after its 300 ms [await]. *)
Inductive Task :=
| TSpeakResume (text : string)     (* speak, from line 355 on *)
| TSpeak (text : string)           (* () => this.speak(nextText) *)
| TStartCamera                     (* () => this.startCamera() *)
| TStartContinuousListening        (* () => this.startContinuousListening() *)
| TOnEndRestart                    (* the callback of lines 168-173 *)
| TWatchdog                        (* the setInterval callback, line 735 *)
| TWatchdogRestart                 (* its setTimeout of line 746 *)
| TWatchdogRetry.                  (* its setTimeout of line 755 *)

(** Calls that reach the browser or the network. *)
Inductive Action :=
| RecStart                         (* recognition.start() *)
| RecStartThrew                    (* recognition.start(), which threw *)
| RecStop                          (* recognition.stop() *)
| AudioPause (a : nat)             (* currentAudio.pause() *)
| AudioPlay (a : nat) (text : string)   (* audio.play() *)
| SynthCancel                      (* speechSynthesis.cancel() *)
| SynthPause                       (* speechSynthesis.pause() *)
| SynthSpeak (text : string)       (* speechSynthesis.speak(utterance) *)
| TtsFetch (text : string)         (* fetch to api.elevenlabs.io *)
| Query (question : string).       (* fetch to api.openai.com *)

(** The fields of [BlindVisionApp] that the controller reads or writes,
    then the state of the browser, then what stays fixed during a run.
    [isSpeaking], [isAnalyzing] and [conversationMode] are set to false by
    the constructor and never touched again; they are left out, as are the
    camera, the canvas and the status indicator. *)
Record World := mkWorld {
  speechQueue : list string;        (* this.speechQueue *)
  currentAudio : option nat;        (* this.currentAudio, an Audio by number *)
  isPlaying : bool;                 (* this.isPlaying *)
  recognition : bool;               (* this.recognition is not null *)
  isListening : bool;               (* this.isListening *)
  continuousListening : bool;       (* this.continuousListening *)
  mobileRestartInterval : bool;     (* this.mobileRestartInterval is set *)
  hasStarted : bool;                (* this.hasStarted *)
  recState : RecState;              (* the recogniser *)
  playing : list nat;               (* Audio elements that are playing *)
  nextAudio : nat;                  (* number of the next new Audio *)
  synth : option string;            (* utterance speechSynthesis speaks *)
  ttsPending : list string;         (* ElevenLabs requests in flight *)
  queries : nat;                    (* OpenAI requests in flight *)
  timers : list (N * Task);         (* pending timers, by due time *)
  now : N;                        (* current time, in ms *)
  log : list Action;                (* browser calls made, oldest first *)
  mobileUA : bool;                  (* UA matches iPhone|iPad|iPod|Android *)
  cameraReady : bool;               (* captureFrame() returns an image *)
  speechSupport : Support;          (* what the page finds for SpeechRecognition *)
  elevenLabsKey : string            (* this.elevenLabsKey *)
}.

(** Field updates, one per assignable field. *)
Definition set_speechQueue (v : list string) (w : World) : World :=
  mkWorld v (currentAudio w) (isPlaying w) (recognition w) (isListening w)
    (continuousListening w) (mobileRestartInterval w) (hasStarted w)
    (recState w) (playing w) (nextAudio w) (synth w) (ttsPending w)
    (queries w) (timers w) (now w) (log w) (mobileUA w) (cameraReady w)
    (speechSupport w) (elevenLabsKey w).
Definition set_currentAudio (v : option nat) (w : World) : World :=
  mkWorld (speechQueue w) v (isPlaying w) (recognition w) (isListening w)
    (continuousListening w) (mobileRestartInterval w) (hasStarted w)
    (recState w) (playing w) (nextAudio w) (synth w) (ttsPending w)
    (queries w) (timers w) (now w) (log w) (mobileUA w) (cameraReady w)
    (speechSupport w) (elevenLabsKey w).
Definition set_isPlaying (v : bool) (w : World) : World :=
  mkWorld (speechQueue w) (currentAudio w) v (recognition w) (isListening w)
    (continuousListening w) (mobileRestartInterval w) (hasStarted w)
    (recState w) (playing w) (nextAudio w) (synth w) (ttsPending w)
    (queries w) (timers w) (now w) (log w) (mobileUA w) (cameraReady w)
    (speechSupport w) (elevenLabsKey w).
Definition set_recognition (v : bool) (w : World) : World :=
  mkWorld (speechQueue w) (currentAudio w) (isPlaying w) v (isListening w)
    (continuousListening w) (mobileRestartInterval w) (hasStarted w)
    (recState w) (playing w) (nextAudio w) (synth w) (ttsPending w)
    (queries w) (timers w) (now w) (log w) (mobileUA w) (cameraReady w)
    (speechSupport w) (elevenLabsKey w).
Definition set_isListening (v : bool) (w : World) : World :=
  mkWorld (speechQueue w) (currentAudio w) (isPlaying w) (recognition w) v
    (continuousListening w) (mobileRestartInterval w) (hasStarted w)
    (recState w) (playing w) (nextAudio w) (synth w) (ttsPending w)
    (queries w) (timers w) (now w) (log w) (mobileUA w) (cameraReady w)
    (speechSupport w) (elevenLabsKey w).
Definition set_continuousListening (v : bool) (w : World) : World :=
  mkWorld (speechQueue w) (currentAudio w) (isPlaying w) (recognition w)
    (isListening w) v (mobileRestartInterval w) (hasStarted w) (recState w)
    (playing w) (nextAudio w) (synth w) (ttsPending w) (queries w)
    (timers w) (now w) (log w) (mobileUA w) (cameraReady w)
    (speechSupport w) (elevenLabsKey w).
Definition set_mobileRestartInterval (v : bool) (w : World) : World :=
  mkWorld (speechQueue w) (currentAudio w) (isPlaying w) (recognition w)
    (isListening w) (continuousListening w) v (hasStarted w) (recState w)
    (playing w) (nextAudio w) (synth w) (ttsPending w) (queries w)
    (timers w) (now w) (log w) (mobileUA w) (cameraReady w)
    (speechSupport w) (elevenLabsKey w).
Definition set_hasStarted (v : bool) (w : World) : World :=
  mkWorld (speechQueue w) (currentAudio w) (isPlaying w) (recognition w)
    (isListening w) (continuousListening w) (mobileRestartInterval w) v
    (recState w) (playing w) (nextAudio w) (synth w) (ttsPending w)
    (queries w) (timers w) (now w) (log w) (mobileUA w) (cameraReady w)
    (speechSupport w) (elevenLabsKey w).
Definition set_recState (v : RecState) (w : World) : World :=
  mkWorld (speechQueue w) (currentAudio w) (isPlaying w) (recognition w)
    (isListening w) (continuousListening w) (mobileRestartInterval w)
    (hasStarted w) v (playing w) (nextAudio w) (synth w) (ttsPending w)
    (queries w) (timers w) (now w) (log w) (mobileUA w) (cameraReady w)
    (speechSupport w) (elevenLabsKey w).
Definition set_playing (v : list nat) (w : World) : World :=
  mkWorld (speechQueue w) (currentAudio w) (isPlaying w) (recognition w)
    (isListening w) (continuousListening w) (mobileRestartInterval w)
    (hasStarted w) (recState w) v (nextAudio w) (synth w) (ttsPending w)
    (queries w) (timers w) (now w) (log w) (mobileUA w) (cameraReady w)
    (speechSupport w) (elevenLabsKey w).
Definition set_nextAudio (v : nat) (w : World) : World :=
  mkWorld (speechQueue w) (currentAudio w) (isPlaying w) (recognition w)
    (isListening w) (continuousListening w) (mobileRestartInterval w)
    (hasStarted w) (recState w) (playing w) v (synth w) (ttsPending w)
    (queries w) (timers w) (now w) (log w) (mobileUA w) (cameraReady w)
    (speechSupport w) (elevenLabsKey w).
Definition set_synth (v : option string) (w : World) : World :=
  mkWorld (speechQueue w) (currentAudio w) (isPlaying w) (recognition w)
    (isListening w) (continuousListening w) (mobileRestartInterval w)
    (hasStarted w) (recState w) (playing w) (nextAudio w) v (ttsPending w)
    (queries w) (timers w) (now w) (log w) (mobileUA w) (cameraReady w)
    (speechSupport w) (elevenLabsKey w).
Definition set_ttsPending (v : list string) (w : World) : World :=
  mkWorld (speechQueue w) (currentAudio w) (isPlaying w) (recognition w)
    (isListening w) (continuousListening w) (mobileRestartInterval w)
    (hasStarted w) (recState w) (playing w) (nextAudio w) (synth w) v
    (queries w) (timers w) (now w) (log w) (mobileUA w) (cameraReady w)
    (speechSupport w) (elevenLabsKey w).
Definition set_queries (v : nat) (w : World) : World :=
  mkWorld (speechQueue w) (currentAudio w) (isPlaying w) (recognition w)
    (isListening w) (continuousListening w) (mobileRestartInterval w)
    (hasStarted w) (recState w) (playing w) (nextAudio w) (synth w)
    (ttsPending w) v (timers w) (now w) (log w) (mobileUA w) (cameraReady w)
    (speechSupport w) (elevenLabsKey w).
Definition set_timers (v : list (N * Task)) (w : World) : World :=
  mkWorld (speechQueue w) (currentAudio w) (isPlaying w) (recognition w)
    (isListening w) (continuousListening w) (mobileRestartInterval w)
    (hasStarted w) (recState w) (playing w) (nextAudio w) (synth w)
    (ttsPending w) (queries w) v (now w) (log w) (mobileUA w)
    (cameraReady w) (speechSupport w) (elevenLabsKey w).
Definition set_now (v : N) (w : World) : World :=
  mkWorld (speechQueue w) (currentAudio w) (isPlaying w) (recognition w)
    (isListening w) (continuousListening w) (mobileRestartInterval w)
    (hasStarted w) (recState w) (playing w) (nextAudio w) (synth w)
    (ttsPending w) (queries w) (timers w) v (log w) (mobileUA w)
    (cameraReady w) (speechSupport w) (elevenLabsKey w).
Definition set_log (v : list Action) (w : World) : World :=
  mkWorld (speechQueue w) (currentAudio w) (isPlaying w) (recognition w)
    (isListening w) (continuousListening w) (mobileRestartInterval w)
    (hasStarted w) (recState w) (playing w) (nextAudio w) (synth w)
    (ttsPending w) (queries w) (timers w) (now w) v (mobileUA w)
    (cameraReady w) (speechSupport w) (elevenLabsKey w).

(** ** Browser calls *)

Definition emit (a : Action) (w : World) : World := set_log (log w ++ [a]) w.

(** The timer queue is kept in firing order: by due time, and among equal
    due times by the order of the calls. *)
Fixpoint insertTimer (d : N) (t : Task) (l : list (N * Task))
  : list (N * Task) :=
  match l with
  | [] => [(d, t)]
  | (d', t') :: r =>
      if (d' <=? d)%N then (d', t') :: insertTimer d t r else (d, t) :: l
  end.

Definition setTimeout (delay : N) (t : Task) (w : World) : World :=
  set_timers (insertTimer (now w + delay)%N t (timers w)) w.

(** [recognition.stop()]. *)
Definition recognition_stop (w : World) : World :=
  emit RecStop
    (match recState w with
     | RecRunning => set_recState RecStopping w
     | _ => w
     end).

(** [recognition.start()]. *)
Definition recognition_start (w : World) : StartResult * World :=
  match recState w with
  | RecIdle => (Started, emit RecStart (set_recState RecRunning w))
  | _ => (ThrowsAlreadyStarted, emit RecStartThrew w)
  end.

Fixpoint removeAudio (a : nat) (l : list nat) : list nat :=
  match l with
  | [] => []
  | b :: r => if a =? b then removeAudio a r else b :: removeAudio a r
  end.

(** ** Methods of [BlindVisionApp] *)

(** [stopAllAudio()], lines 379-428.  The page has no [<audio>] element and
    a [new Audio(url)] is not in the document, so [querySelectorAll('audio')]
    finds nothing; no script of the page sets [window.audioContext].
    [speechSynthesis.cancel()] is taken to drop the utterance without an
    event. *)
Definition stopAllAudio (w : World) : World :=
  let w := match currentAudio w with
           | Some a =>
               set_currentAudio None
                 (emit (AudioPause a) (set_playing (removeAudio a (playing w)) w))
           | None => w
           end in
  let w := emit SynthPause (emit SynthCancel (set_synth None w)) in
  set_isPlaying false w.

(** [speak(text)] up to its first [await], lines 326-353. *)
Definition speak (text : string) (w : World) : World :=
  if isPlaying w then set_speechQueue (speechQueue w ++ [text]) w
  else
    let w := if recognition w && isListening w then recognition_stop w else w in
    let w := set_isPlaying true w in
    let w := stopAllAudio w in
    let w := set_isPlaying true w in
    setTimeout 300%N (TSpeakResume text) w.

(** [speakWithBrowser(text)], lines 547-622. *)
Definition speakWithBrowser (text : string) (w : World) : World :=
  let w := emit SynthCancel (set_synth None w) in
  emit (SynthSpeak text) (set_synth (Some text) w).

(** The end of [speak], lines 370-376. *)
Definition speakQueued (w : World) : World :=
  match speechQueue w with
  | [] => w
  | nextText :: rest => setTimeout 100%N (TSpeak nextText) (set_speechQueue rest w)
  end.

(** The test of line 356. *)
Definition keyUsable (w : World) : bool :=
  negb (elevenLabsKey w =? "")%string
  && negb (elevenLabsKey w =? "your_elevenlabs_api_key_here")%string.

(** [speak] after the 300 ms pause, lines 355-368: with a key the request
    to ElevenLabs leaves and [speak] waits for it. *)
Definition speakResume (text : string) (w : World) : World :=
  if keyUsable w then
    emit (TtsFetch text) (set_ttsPending (ttsPending w ++ [text]) w)
  else speakQueued (speakWithBrowser text w).

Fixpoint dropNth {A : Type} (i : nat) (l : list A) : list A :=
  match l, i with
  | [], _ => []
  | _ :: r, 0 => r
  | x :: r, S j => x :: dropNth j r
  end.

(** [speakWithElevenLabs(text)] once the request has an answer, lines
    474-544, and then the rest of [speak]: a good answer becomes a new
    Audio that starts to play; a bad one clears [isPlaying] and
    [currentAudio], and [speak] falls back to the browser voice. *)
Definition ttsResolved (i : nat) (ok : bool) (w : World) : World :=
  match nth_error (ttsPending w) i with
  | None => w
  | Some text =>
      let w := set_ttsPending (dropNth i (ttsPending w)) w in
      if ok then
        let a := nextAudio w in
        let w := set_nextAudio (S a) w in
        let w := set_currentAudio (Some a) w in
        let w := set_isPlaying true w in
        let w := emit (AudioPlay a text) (set_playing (playing w ++ [a]) w) in
        speakQueued w
      else
        let w := set_isPlaying false w in
        let w := set_currentAudio None w in
        speakQueued (speakWithBrowser text w)
  end.

(** Lines 506-525 of [audio.onended], the same as lines 593-612 of
    [utterance.onend]. *)
Definition afterPlayback (w : World) : World :=
  let w := if continuousListening w && negb (isListening w)
           then setTimeout 1500%N TStartContinuousListening w else w in
  match speechQueue w with
  | [] => w
  | nextText :: rest =>
      let w := set_speechQueue rest w in
      let w := if 2 <? length (speechQueue w) then set_speechQueue [] w else w in
      setTimeout 500%N (TSpeak nextText) w
  end.

Definition audio_onended (w : World) : World :=
  afterPlayback (set_currentAudio None (set_isPlaying false w)).

Definition audio_onerror (w : World) : World :=
  set_currentAudio None (set_isPlaying false w).

Definition utterance_onend (w : World) : World :=
  afterPlayback (set_isPlaying false w).

Definition utterance_onerror (w : World) : World := set_isPlaying false w.

(** [setInterval(callback, 20000)]: the first firing is queued, each firing
    queues the next. *)
Definition setInterval (delay : N) (t : Task) (w : World) : World :=
  setTimeout delay t w.

(** [startContinuousListening()], lines 703-783. *)
Definition startContinuousListening (w : World) : World :=
  if negb (recognition w) then w
  else if isListening w then w
  else
    let w := set_continuousListening true w in
    match recognition_start w with
    | (Started, w) =>
        let w := set_isListening true w in
        if mobileUA w && negb (mobileRestartInterval w)
        then setInterval 20000%N TWatchdog (set_mobileRestartInterval true w)
        else w
    | (ThrowsAlreadyStarted, w) => set_isListening true w
    | (ThrowsOther, w) => setTimeout 2000%N TStartContinuousListening w
    end.

(** The watchdog: the interval callback of lines 735-767 ... *)
Definition watchdogTick (w : World) : World :=
  if continuousListening w && negb (isPlaying w) then
    let w := if isListening w
             then set_isListening false (recognition_stop w) else w in
    setTimeout 200%N TWatchdogRestart w
  else w.

(** ... its delayed restart, lines 746-762 ... *)
Definition watchdogRestart (w : World) : World :=
  if continuousListening w && negb (isPlaying w) && negb (isListening w) then
    match recognition_start w with
    | (Started, w) => set_isListening true w
    | (_, w) => setTimeout 2000%N TWatchdogRetry w
    end
  else w.

(** ... and the retry after a failed restart, lines 755-759. *)
Definition watchdogRetry (w : World) : World :=
  if continuousListening w && negb (isPlaying w) && negb (isListening w)
  then startContinuousListening w else w.

(** [askAboutScene(question)] up to its [fetch], lines 852-898. *)
Definition askAboutScene (question : string) (w : World) : World :=
  emit (Query question) (set_queries (S (queries w)) w).

(** [askAboutScene] once the request is settled, lines 900-915: the answer
    is spoken, and any failure becomes a spoken apology. *)
Definition queryResolved (answer : option string) (w : World) : World :=
  let w := set_queries (pred (queries w)) w in
  match answer with
  | Some text => speak text w
  | None => speak "Sorry, I had trouble analyzing that. Please try again." w
  end.

(** [handleVoiceCommand(command)], lines 819-850. *)
Definition handleVoiceCommand (command : string) (w : World) : World :=
  let lowerCommand := toLowerCase command in
  if includes lowerCommand "help" then
    speak "I can help you find things. Just ask: Where is my backpack? Do you see a bag? What's in front of me?" w
  else if includes lowerCommand "stop" || includes lowerCommand "quiet" then
    stopAllAudio w
  else
    let command :=
      if includes lowerCommand "where"
         && (includes lowerCommand "glasses" || includes lowerCommand "sunglasses")
      then "Where are my glasses or sunglasses? Look for them specifically."
      else command in
    if cameraReady w then askAboutScene command w
    else speak "Unable to capture image. Please make sure the camera is active." w.

(** The handlers installed by [initializeSpeechRecognition], lines 112-175.
    An event carries its last result: whether it is final, and its text. *)
Definition recognition_onstart (w : World) : World := set_isListening true w.

Definition recognition_onresult (isFinal : bool) (text : string) (w : World)
  : World :=
  if isFinal then
    let transcript := trim text in
    if acceptsTranscript transcript
    then handleVoiceCommand transcript (recognition_stop w)
    else w
  else w.

Definition recognition_onerror (error : string) (w : World) : World :=
  let w := set_isListening false w in
  if (error =? "no-speech")%string then
    if negb (isPlaying w)
    then speak "I didn't hear anything. Please try again." w else w
  else if (error =? "network")%string then
    speak "Network error. Please check your connection." w
  else w.

Definition recognition_onend (w : World) : World :=
  let w := set_isListening false w in
  if continuousListening w && negb (isPlaying w)
  then setTimeout 1000%N TOnEndRestart w else w.

Definition onEndRestart (w : World) : World :=
  if continuousListening w && negb (isPlaying w)
  then startContinuousListening w else w.

(** [handleTouchControl()], lines 248-256. *)
Definition handleTouchControl (w : World) : World :=
  if isPlaying w then stopAllAudio w else w.

(** [startApp()], lines 280-297. *)
Definition startApp (w : World) : World :=
  let w := speak "BlindVision Assistant ready. Just speak to ask me questions." w in
  let w := setTimeout 2000%N TStartCamera w in
  if recognition w then setTimeout 3500%N TStartContinuousListening w else w.

(** [handleStartButtonClick()], lines 260-278. *)
Definition handleStartButtonClick (w : World) : World :=
  if hasStarted w then w else startApp (set_hasStarted true w).

(** [initializeSpeechRecognition()], lines 85-111. *)
Definition initializeSpeechRecognition (w : World) : World :=
  match speechSupport w with
  | SrMissing =>
      speak "Sorry, speech recognition is not supported in your browser. Please use Chrome or Safari." w
  | SrThrows => speak "Failed to initialize speech recognition." w
  | SrAvailable => set_recognition true w
  end.

(** [autoStart()], lines 299-324. *)
Definition autoStart (w : World) : World :=
  if mobileUA w then w else startApp w.

(** The constructor, lines 2-49.  The page has the start button and the
    start screen, so [initializeElements] only installs listeners. *)
Definition pristine (mobile camera : bool) (sr : Support) (key : string)
  : World :=
  mkWorld [] None false false false true false false
          RecIdle [] 0 None [] 0 [] 0%N [] mobile camera sr key.

Definition boot (mobile camera : bool) (sr : Support) (key : string) : World :=
  autoStart (initializeSpeechRecognition (pristine mobile camera sr key)).

(** ** The event loop *)

Definition runTask (t : Task) (w : World) : World :=
  match t with
  | TSpeakResume text => speakResume text w
  | TSpeak text => speak text w
  | TStartCamera => w   (* the camera starts; startCamera speaks only if it fails *)
  | TStartContinuousListening => startContinuousListening w
  | TOnEndRestart => onEndRestart w
  | TWatchdog => watchdogTick (setInterval 20000%N TWatchdog w)
  | TWatchdogRestart => watchdogRestart w
  | TWatchdogRetry => watchdogRetry w
  end.

(** What the browser and the network deliver. *)
Inductive ExtEvent :=
| StartButtonClick
| Touch
| RecOnStart
| RecResult (isFinal : bool) (text : string)
| RecError (error : string)
| RecEnd
| AudioEnded (a : nat)
| AudioError (a : nat)
| SynthEnd
| SynthError
| TtsResolved (i : nat) (ok : bool)
| QueryResolved (answer : option string).

Definition recStarted (w : World) : bool :=
  match recState w with RecIdle => false | _ => true end.

Definition audioPlays (a : nat) (w : World) : bool := existsb (Nat.eqb a) (playing w).

(** An event is delivered only when the browser can produce it: recogniser
    events while it is started, the end of a playback while it plays, a
    settled request while it is in flight. *)
Definition deliver (e : ExtEvent) (w : World) : option World :=
  match e with
  | StartButtonClick =>
      (* the click bubbles from the button to the document listener *)
      Some (handleTouchControl (handleStartButtonClick w))
  | Touch => Some (handleTouchControl w)
  | RecOnStart =>
      if recStarted w then Some (recognition_onstart w) else None
  | RecResult isFinal text =>
      if recStarted w then Some (recognition_onresult isFinal text w) else None
  | RecError error =>
      if recStarted w
      then Some (recognition_onerror error (set_recState RecStopping w))
      else None
  | RecEnd =>
      if recStarted w
      then Some (recognition_onend (set_recState RecIdle w)) else None
  | AudioEnded a =>
      if audioPlays a w
      then Some (audio_onended (set_playing (removeAudio a (playing w)) w))
      else None
  | AudioError a =>
      if audioPlays a w
      then Some (audio_onerror (set_playing (removeAudio a (playing w)) w))
      else None
  | SynthEnd =>
      match synth w with
      | Some _ => Some (utterance_onend (set_synth None w))
      | None => None
      end
  | SynthError =>
      match synth w with
      | Some _ => Some (utterance_onerror (set_synth None w))
      | None => None
      end
  | TtsResolved i ok =>
      if i <? length (ttsPending w) then Some (ttsResolved i ok w) else None
  | QueryResolved answer =>
      if 0 <? queries w then Some (queryResolved answer w) else None
  end.

(** One turn of the loop: the timer at the head of the queue expires, or
    an outside event arrives [dt] ms from now, not later than a timer that
    is still pending. *)
Inductive Event :=
| Fire
| Ext (dt : N) (e : ExtEvent).

Definition step (ev : Event) (w : World) : option World :=
  match ev with
  | Fire =>
      match timers w with
      | [] => None
      | (d, t) :: r => Some (runTask t (set_now (N.max (now w) d) (set_timers r w)))
      end
  | Ext dt e =>
      match timers w with
      | (d, _) :: _ =>
          if (d <? now w + dt)%N then None
          else deliver e (set_now (now w + dt)%N w)
      | [] => deliver e (set_now (now w + dt)%N w)
      end
  end.

Fixpoint run (evs : list Event) (w : World) : option World :=
  match evs with
  | [] => Some w
  | ev :: r =>
      match step ev w with
      | Some w' => run r w'
      | None => None
      end
  end.

(** ** The turn state of the specification, read off the flags *)

Inductive TurnState := Idle | Listening | Processing | Speaking.

(** Speaking while [isPlaying] is set; otherwise Processing while a query is
    in flight; otherwise Listening or Idle by [isListening]. *)
Definition turnState (w : World) : TurnState :=
  if isPlaying w then Speaking
  else if 0 <? queries w then Processing
  else if isListening w then Listening
  else Idle.

(** The microphone is armed while the recogniser runs; the speaker while an
    Audio element plays or the synthesiser speaks. *)
Definition micArmed (w : World) : bool :=
  match recState w with RecRunning => true | _ => false end.

Definition playbackArmed (w : World) : bool :=
  match playing w, synth w with
  | [], None => false
  | _, _ => true
  end.

(** Number of playbacks going on. *)
Definition playbacks (w : World) : nat :=
  length (playing w) + match synth w with Some _ => 1 | None => 0 end.

(** The phrases tested by [isEcho], lines 131-133. *)
Definition echoPhrases : list string :=
  ["the person on the left"; "wearing glasses and"; "room with"].

(** Number of space characters of a string. *)
Fixpoint spaces (s : string) : nat :=
  match s with
  | EmptyString => 0
  | String c r => (if isSpace c then 1 else 0) + spaces r
  end.

(** [texts.forEach(t => this.speak(t))]: calls of [speak] in a row. *)
Definition speakAll (texts : list string) (w : World) : World :=
  fold_left (fun w t => speak t w) texts w.

(** ** Runs of the page *)

(** The page on a desktop browser with the camera working: without an
    ElevenLabs key (the browser voice speaks), with one, and with no speech
    recognition at all; and the page on a phone. *)
Definition desktop : World :=
  boot false true SrAvailable "your_elevenlabs_api_key_here".

Definition desktopEleven : World := boot false true SrAvailable "sk_0123".

Definition desktopDeaf : World :=
  boot false true SrMissing "your_elevenlabs_api_key_here".

Definition phone : World :=
  boot true true SrAvailable "your_elevenlabs_api_key_here".

(** The page has loaded; the welcome starts after 300 ms, the camera after
    2 s, and at 3.5 s the timer of [startApp] starts listening. *)
Definition launchRun : list Event := [Fire; Fire; Fire].

(** The welcome is over at 4.3 s.  At 5.9 s the user asks a question,
    recognition stops and ends, and its [onend] handler starts it again one
    second later, the query still in flight. *)
Definition questionRun : list Event :=
  launchRun ++
  [Ext 100 RecOnStart; Ext 700 SynthEnd;
   Ext 1600 (RecResult true "what do you see"); Ext 100 RecEnd; Fire].

(** Then a second question; the first answer arrives and [speak] takes the
    speaker, the second arrives 200 ms later and waits in the queue. *)
Definition twoAnswersRun : list Event :=
  questionRun ++
  [Ext 1000 (RecResult true "where is my bag"); Ext 100 RecEnd;
   Ext 400 (QueryResolved (Some "a chair ahead"));
   Ext 200 (QueryResolved (Some "on the table"));
   Fire; Fire; Fire].

(** The same two questions with an ElevenLabs key, and a touch between the
    two answers, before the audio of the first exists. *)
Definition touchBetweenAnswersRun : list Event :=
  [Fire; Ext 600 (TtsResolved 0 true); Fire; Fire; Ext 100 RecOnStart;
   Ext 1300 (AudioEnded 0);
   Ext 1100 (RecResult true "what do you see"); Ext 100 RecEnd; Fire;
   Ext 900 (RecResult true "where is my bag"); Ext 100 RecEnd;
   Ext 400 (QueryResolved (Some "a chair ahead"));
   Ext 100 Touch;
   Ext 100 (QueryResolved (Some "on the table"));
   Fire; Fire; Fire;
   Ext 400 (TtsResolved 0 true); Ext 100 (TtsResolved 0 true)].

(** On a phone: the start button at 1 s, the welcome from 1.3 s to 5.3 s,
    listening from 4.5 s on with the watchdog due every 20 s; a question
    100 ms before the watchdog is due. *)
Definition phoneQuestionRun : list Event :=
  [Ext 1000 StartButtonClick; Fire; Fire; Fire; Ext 100 RecOnStart;
   Ext 700 SynthEnd;
   Ext 19100 (RecResult true "what do you see")].

(** The microphone is refused: each start is answered by the error
    'not-allowed' and the end of recognition. *)
Definition deniedRound : list Event :=
  [Ext 100 (RecError "not-allowed"); Ext 0 RecEnd; Fire].

Definition deniedRun : list Event :=
  launchRun ++
  [Ext 100 (RecError "not-allowed"); Ext 0 RecEnd; Ext 700 SynthEnd; Fire]
  ++ deniedRound ++ deniedRound.

Definition deniedRounds (n : nat) : list Event :=
  concat (repeat deniedRound n).

(** Recognition has been started on a desktop browser, nothing plays, no
    timer is pending and the continuous mode is on. *)
Definition refusedStart (w : World) : Prop :=
  recognition w = true /\ continuousListening w = true
  /\ isPlaying w = false /\ recState w = RecRunning
  /\ timers w = [] /\ mobileUA w = false.

(** Scenario A of the specification: a question, its answer spoken by the
    browser voice, and listening resumed 1.5 s after the speech ends. *)
Definition scenarioA : list Event :=
  questionRun ++
  [Ext 1000 (QueryResolved (Some "a chair ahead")); Ext 100 RecEnd; Fire;
   Ext 2000 SynthEnd; Fire].

(** The world a run ends in (the start itself if the run cannot happen). *)
Definition after (evs : list Event) (w : World) : World :=
  match run evs w with
  | Some w' => w'
  | None => w
  end.

(** The queue that the handlers of a finished playback leave, lines
    515-521: the first entry is shifted out, and what remains is kept only
    if it has at most 2 entries. *)
Definition afterShift (q : list string) : list string :=
  match q with
  | [] => []
  | _ :: rest => if 2 <? length rest then [] else rest
  end.

(** A handler that only adds to the log of browser calls. *)
Definition extends (f : World -> World) : Prop :=
  forall w, exists l, log (f w) = log w ++ l.

(** ** Further methods of [BlindVisionApp] *)

(** A key read by the constructor, lines 30-40:
    [(window.ENV && window.ENV.K && window.ENV.K !== token) ? window.ENV.K
     : localStorage.getItem(k) || fallback].
    [env] is [window.ENV.K], absent when [window.ENV] or its field is
    undefined; [stored] is the item of [localStorage], absent when null.
    An empty string is falsy. *)
Definition truthy (s : option string) : bool :=
  match s with
  | Some k => negb (k =? "")%string
  | None => false
  end.

Definition loadKey (env : option string) (token : string)
    (stored : option string) (fallback : string) : string :=
  match env with
  | Some k =>
      if truthy env && negb (k =? token)%string then k
      else match stored with
           | Some s => if truthy stored then s else fallback
           | None => fallback
           end
  | None =>
      match stored with
      | Some s => if truthy stored then s else fallback
      | None => fallback
      end
  end.

(** [this.elevenLabsKey], lines 37-40. *)
Definition loadElevenLabsKey (env stored : option string) : string :=
  loadKey env "__ELEVENLABS_API_KEY__" stored "your_elevenlabs_api_key_here".

(** [this.apiKey], lines 30-33. *)
Definition loadApiKey (env stored : option string) : string :=
  loadKey env "__OPENAI_API_KEY__" stored "your_openai_api_key_here".

(** The page as the constructor leaves it, the ElevenLabs key read from
    the environment and the local storage. *)
Definition bootWithKeys (mobile camera : bool) (sr : Support)
    (env stored : option string) : World :=
  boot mobile camera sr (loadElevenLabsKey env stored).

(** [clearInterval(this.mobileRestartInterval)]: the pending firing of the
    interval callback leaves the timer queue. *)
Definition isWatchdog (t : Task) : bool :=
  match t with
  | TWatchdog => true
  | _ => false
  end.

Definition clearInterval (w : World) : World :=
  set_timers (filter (fun dt => negb (isWatchdog (snd dt))) (timers w)) w.

(** [stopRecognition()], lines 430-448. *)
Definition stopRecognition (w : World) : World :=
  let w := if recognition w && isListening w
           then set_isListening false (recognition_stop w) else w in
  let w := if mobileRestartInterval w
           then set_mobileRestartInterval false (clearInterval w) else w in
  set_continuousListening false w.

(** The [catch] of [startListening], lines 808-815, by the name of the
    error thrown. *)
Definition startListeningCatch (name : string) (w : World) : World :=
  if (name =? "NotAllowedError")%string
  then speak "Please allow microphone access to use voice commands." w
  else w.

(** [startListening()], lines 785-817.  The error that [start()] throws in
    a recogniser already started is an InvalidStateError. *)
Definition startListening (w : World) : World :=
  if negb (recognition w) then
    speak "Speech recognition not available in your browser." w
  else if isListening w then w
  else
    let w := stopAllAudio w in
    let w := set_speechQueue [] w in
    match recognition_start w with
    | (Started, w) => w
    | (ThrowsAlreadyStarted, w) => startListeningCatch "InvalidStateError" w
    | (ThrowsOther, w) => startListeningCatch "Error" w
    end.

(** [updateStatus(message, type)], lines 224-241, on the class list of the
    status element when the page has one: [classList.remove] of the three
    status classes, then [classList.add] of the one for [type]. *)
Definition statusClasses : list string := ["active"; "inactive"; "listening"].

Definition classListRemove (names classes : list string) : list string :=
  filter (fun c => negb (arrayIncludes names c)) classes.

Definition classListAdd (name : string) (classes : list string) : list string :=
  if arrayIncludes classes name then classes else classes ++ [name].

Definition statusClassFor (type : string) : string :=
  if (type =? "listening")%string then "listening"
  else if (type =? "ready")%string || (type =? "analyzing")%string then "active"
  else "inactive".

Definition updateStatus (type : string) (statusElement : option (list string))
  : option (list string) :=
  match statusElement with
  | None => None
  | Some classes =>
      Some (classListAdd (statusClassFor type)
              (classListRemove statusClasses classes))
  end.

(** The choice of a voice in [speakWithBrowser], lines 560-583: the
    preferences are tried in order, each with [voices.find]. *)
Record Voice := mkVoice { voiceName : string; voiceLang : string }.

Definition voicePreferences : list (Voice -> bool) :=
  [ (fun voice => includes (voiceName voice) "Samantha" && includes (voiceLang voice) "en");
    (fun voice => includes (voiceName voice) "Alex" && includes (voiceLang voice) "en");
    (fun voice => includes (voiceName voice) "Victoria" && includes (voiceLang voice) "en");
    (fun voice => includes (voiceName voice) "Google" && includes (voiceLang voice) "en");
    (fun voice => includes (voiceName voice) "Natural" && includes (voiceLang voice) "en");
    (fun voice => includes (voiceLang voice) "en" && negb (includes (voiceName voice) "Microsoft")) ].

Fixpoint firstPreferred (preferences : list (Voice -> bool)) (voices : list Voice)
  : option Voice :=
  match preferences with
  | [] => None
  | preference :: rest =>
      match find preference voices with
      | Some voice => Some voice
      | None => firstPreferred rest voices
      end
  end.

Definition bestVoice (voices : list Voice) : option Voice :=
  firstPreferred voicePreferences voices.

(** ** Predicates on runs *)

(** Calls to the recogniser among the browser calls. *)
Definition isRecCall (a : Action) : bool :=
  match a with
  | RecStart | RecStartThrew | RecStop => true
  | _ => false
  end.

Definition isQuery (a : Action) : bool :=
  match a with
  | Query _ => true
  | _ => false
  end.

(** Tasks of the watchdog: the interval callback and its two timeouts. *)
Definition isWatchdogTask (t : Task) : bool :=
  match t with
  | TWatchdog | TWatchdogRestart | TWatchdogRetry => true
  | _ => false
  end.

(** Pending firings of the interval callback. *)
Definition watchdogsPending (w : World) : nat :=
  length (filter (fun dt => isWatchdog (snd dt)) (timers w)).

(** [text] is on its way to the speaker: waiting in the queue, or waiting
    for the 300 ms pause of [speak] to end. *)
Definition willSpeak (text : string) (w : World) : Prop :=
  In text (speechQueue w) \/ In (TSpeakResume text) (map snd (timers w)).

(** The texts spoken by [handleVoiceCommand] and [askAboutScene], and the
    question that replaces one about glasses, lines 826, 838, 848 and 913. *)
Definition helpText : string :=
  "I can help you find things. Just ask: Where is my backpack? Do you see a bag? What's in front of me?".

Definition noImageText : string :=
  "Unable to capture image. Please make sure the camera is active.".

Definition glassesQuestion : string :=
  "Where are my glasses or sunglasses? Look for them specifically.".


(** The queries among the browser calls. *)
Definition queriesOf (w : World) : list Action := filter isQuery (log w).

(** ** Invariants of runs *)

(** [l'] is [l] with timers added whose tasks satisfy [P]. *)
Inductive grows (P : Task -> Prop) (l : list (N * Task))
  : list (N * Task) -> Prop :=
| grows_refl : grows P l l
| grows_insert (l' : list (N * Task)) (d : N) (t : Task) :
    grows P l l' -> P t -> grows P l (insertTimer d t l').

Definition notWatchdogTask (t : Task) : Prop := isWatchdogTask t = false.

(** Any task but the interval callback. *)
Definition notIntervalTask (t : Task) : Prop := isWatchdog t = false.

Definition notWatchdogTimer (dt : N * Task) : Prop :=
  isWatchdogTask (snd dt) = false.

(** The calls to the recogniser among the browser calls. *)
Definition recCalls (w : World) : list Action := filter isRecCall (log w).

(** From [w] to [x] only timers of tasks in [P] were added, and the
    watchdog flag and the kind of browser stayed. *)
Definition tameAt (P : Task -> Prop) (w x : World) : Prop :=
  grows P (timers w) (timers x)
  /\ mobileRestartInterval x = mobileRestartInterval w
  /\ mobileUA x = mobileUA w.

(** From [w], a world without a recogniser, to [x] the recogniser was not
    touched. *)
Definition quietAt (w x : World) : Prop :=
  recognition w = false ->
  recognition x = false
  /\ recState x = recState w
  /\ recCalls x = recCalls w
  /\ isListening x = isListening w.

(** The watchdog in a browser that is mobile or not: as many interval
    callbacks pending as the flag tells, one or none; none of its tasks and
    no flag on a desktop browser. *)
Definition watchdogInv (mobile : bool) (w : World) : Prop :=
  mobileUA w = mobile
  /\ watchdogsPending w = (if mobileRestartInterval w then 1 else 0)
  /\ (mobile = false ->
      mobileRestartInterval w = false /\ Forall notWatchdogTimer (timers w)).

(** A page without speech recognition: no recogniser object, the
    recogniser idle and never called, not listening, no task of the
    watchdog pending. *)
Definition deafInv (w : World) : Prop :=
  recognition w = false
  /\ recState w = RecIdle
  /\ recCalls w = []
  /\ isListening w = false
  /\ Forall notWatchdogTimer (timers w).

(** ** A whole turn *)







(** The welcome of [startApp], line 284. *)
Definition welcomeText : string :=
  "BlindVision Assistant ready. Just speak to ask me questions.".

(** * Properties *)

(** ** The utterance filter *)

Section Filter.

Lemma split_nonempty (s : string) : split s <> [].
Proof.
  destruct s as [|c r]; simpl; [discriminate|].
  destruct (isSpace c); [discriminate|].
  destruct (split r); discriminate.
Qed.

(** The words counted by the filter are the pieces between spaces: one
    more than the number of space characters. *)
Lemma split_length (s : string) : length (split s) = S (spaces s).
Proof.
  induction s as [|c r IH]; simpl; [reflexivity|].
  destruct (isSpace c); simpl; [now rewrite IH|].
  destruct (split r) as [|p ps] eqn:E; [now destruct (split_nonempty r)|].
  simpl in *. exact IH.
Qed.

Lemma arrayIncludes_In (ws : list string) (q : string) :
  arrayIncludes ws q = true <-> In q ws.
Proof.
  unfold arrayIncludes. rewrite existsb_exists. split.
  - intros [x [Hx Heq]]. apply String.eqb_eq in Heq. now subst.
  - intros H. exists q. split; [assumption | apply String.eqb_refl].
Qed.

Lemma hasQuestionWord_spec (t : string) :
  hasQuestionWord t = true <->
  exists q, In q questionWords /\ In q (wordsOf t).
Proof.
  unfold hasQuestionWord. rewrite existsb_exists.
  split; intros [q [H1 H2]]; exists q; split; try assumption;
    now apply arrayIncludes_In.
Qed.

Lemma isEcho_spec (t : string) :
  isEcho t = true <->
  exists p, In p echoPhrases /\ includes (toLowerCase t) p = true.
Proof.
  unfold isEcho, echoPhrases. rewrite !orb_true_iff. split.
  - intros [[H|H]|H]; eexists; (split; [|exact H]); simpl; auto.
  - intros [p [Hin H]]. simpl in Hin.
    destruct Hin as [<-|[<-|[<-|[]]]]; auto.
Qed.

End Filter.

(** C6.  A final transcript that holds no phrase of the echo list is
    accepted exactly when it has four words or more, or has one of the
    question words among its words and two words or more; a transcript
    that is not accepted leaves everything as it was: recognition goes on
    and no query leaves.  Words are the pieces between spaces of the
    trimmed, lower-cased transcript. *)
Theorem filter_accepts_iff (w : World) (text : string) :
  isEcho (trim text) = false ->
  (acceptsTranscript (trim text) = true <->
   4 <= length (wordsOf (trim text))
   \/ ((exists q, In q questionWords /\ In q (wordsOf (trim text)))
       /\ 2 <= length (wordsOf (trim text))))
  /\ (acceptsTranscript (trim text) = true ->
      recognition_onresult true text w
      = handleVoiceCommand (trim text) (recognition_stop w))
  /\ (acceptsTranscript (trim text) = false ->
      recognition_onresult true text w = w).
Proof.
  intros Hecho. repeat split.
  - unfold acceptsTranscript. rewrite Hecho. simpl.
    rewrite orb_true_iff, andb_true_iff, !Nat.ltb_lt, hasQuestionWord_spec.
    intros [H|[H1 H2]]; [left; lia | right; split; [assumption | lia]].
  - unfold acceptsTranscript. rewrite Hecho. simpl.
    rewrite orb_true_iff, andb_true_iff, !Nat.ltb_lt, hasQuestionWord_spec.
    intros [H|[H1 H2]]; [left; lia | right; split; [assumption | lia]].
  - intros H. unfold recognition_onresult. now rewrite H.
  - intros H. unfold recognition_onresult. now rewrite H.
Qed.

Lemma filter_accepts_iff_witness :
  acceptsTranscript (trim " what do you see ") = true
  /\ recognition_onresult true "the" (pristine false true SrAvailable "")
     = pristine false true SrAvailable "".
Proof.
  split.
  - apply (filter_accepts_iff (pristine false true SrAvailable "")
             " what do you see "); [reflexivity|].
    left. vm_compute. lia.
  - apply (filter_accepts_iff (pristine false true SrAvailable "") "the");
      reflexivity.
Defined.

(** C7.  A final transcript that holds a phrase of the echo list is never
    accepted, however many words it has and whatever words they are: the
    handler leaves everything as it was, so recognition is not stopped and
    no command or query follows. *)
Theorem echo_always_rejected (w : World) (text : string) :
  (exists p, In p echoPhrases /\ includes (toLowerCase (trim text)) p = true) ->
  acceptsTranscript (trim text) = false
  /\ recognition_onresult true text w = w.
Proof.
  intros H. apply isEcho_spec in H.
  assert (Hrej : acceptsTranscript (trim text) = false).
  { unfold acceptsTranscript. now rewrite H. }
  split; [exact Hrej|].
  unfold recognition_onresult. now rewrite Hrej.
Qed.

Lemma echo_always_rejected_witness :
  acceptsTranscript (trim "I can see a room with a chair, what is it") = false
  /\ recognition_onresult true "I can see a room with a chair, what is it"
       (pristine false true SrAvailable "")
     = pristine false true SrAvailable "".
Proof.
  apply (echo_always_rejected (pristine false true SrAvailable "")
           "I can see a room with a chair, what is it").
  exists "room with". split; [simpl; auto | reflexivity].
Defined.

(** ** Stopping playback and queueing speech *)

Section Playback.

Lemma insertTimer_In (d : N) (t : Task) (l : list (N * Task)) :
  In t (map snd (insertTimer d t l)).
Proof.
  induction l as [|[d' t'] r IH]; simpl; [auto|].
  destruct (d' <=? d)%N; simpl; auto.
Qed.

Lemma audioPlays_removeAudio (a : nat) (l : list nat) :
  existsb (Nat.eqb a) (removeAudio a l) = false.
Proof.
  induction l as [|b r IH]; simpl; [reflexivity|].
  destruct (a =? b) eqn:E; simpl; [exact IH|].
  now rewrite E.
Qed.

(** What [stopAllAudio] writes, field by field. *)
Lemma stopAllAudio_fields (w : World) :
  isPlaying (stopAllAudio w) = false
  /\ currentAudio (stopAllAudio w) = None
  /\ synth (stopAllAudio w) = None
  /\ speechQueue (stopAllAudio w) = speechQueue w
  /\ timers (stopAllAudio w) = timers w
  /\ isListening (stopAllAudio w) = isListening w
  /\ continuousListening (stopAllAudio w) = continuousListening w
  /\ recState (stopAllAudio w) = recState w
  /\ queries (stopAllAudio w) = queries w.
Proof.
  unfold stopAllAudio. destruct w as [q ca ip rc il cl mi hs rs pl na sy tp qs tm nw lg mu cr ss ek].
  destruct ca; simpl; repeat split; reflexivity.
Qed.

(** With nothing playing, [stopAllAudio] only repeats its two calls to the
    synthesiser. *)
Lemma stopAllAudio_when_silent (w : World) :
  currentAudio w = None -> synth w = None -> isPlaying w = false ->
  set_log [] (stopAllAudio w) = set_log [] w
  /\ log (stopAllAudio w) = log w ++ [SynthCancel; SynthPause].
Proof.
  destruct w as [q ca ip rc il cl mi hs rs pl na sy tp qs tm nw lg mu cr ss ek].
  simpl. intros -> -> ->. unfold stopAllAudio. simpl.
  split; [reflexivity | now rewrite <- app_assoc].
Qed.

Lemma stopAllAudio_pauses_current (w : World) (a : nat) :
  currentAudio w = Some a -> audioPlays a (stopAllAudio w) = false.
Proof.
  intros H. unfold stopAllAudio, audioPlays. rewrite H. simpl.
  apply audioPlays_removeAudio.
Qed.

(** [speak] while [isPlaying] is set only appends to the queue. *)
Lemma speak_while_playing (text : string) (w : World) :
  isPlaying w = true ->
  speak text w = set_speechQueue (speechQueue w ++ [text]) w.
Proof. intros H. unfold speak. now rewrite H. Qed.

Lemma speakAll_while_playing (texts : list string) (w : World) :
  isPlaying w = true ->
  speakAll texts w = set_speechQueue (speechQueue w ++ texts) w.
Proof.
  revert w. induction texts as [|t r IH]; intros w H; simpl.
  - rewrite app_nil_r. now destruct w.
  - unfold speakAll in *. simpl. rewrite (speak_while_playing t w H).
    rewrite IH by exact H. simpl. now rewrite <- app_assoc.
Qed.

Lemma afterShift_bound (q : list string) : length (afterShift q) <= 2.
Proof.
  destruct q as [|t r]; simpl; [lia|].
  destruct (2 <? length r) eqn:E; simpl; [lia|].
  now apply Nat.ltb_ge in E.
Qed.

Lemma afterPlayback_queue (w : World) :
  speechQueue (afterPlayback w) = afterShift (speechQueue w).
Proof.
  unfold afterPlayback.
  set (w1 := if continuousListening w && negb (isListening w)
             then setTimeout 1500%N TStartContinuousListening w else w).
  assert (Q : speechQueue w1 = speechQueue w)
    by (unfold w1; now destruct (continuousListening w && negb (isListening w))).
  rewrite <- Q. destruct (speechQueue w1) as [|t r] eqn:E; [now rewrite E|].
  cbv zeta. change (speechQueue (set_speechQueue r w1)) with r.
  unfold afterShift. now destruct (2 <? length r).
Qed.

Lemma afterPlayback_speaks_oldest (w : World) (t : string) (rest : list string) :
  speechQueue w = t :: rest ->
  In (TSpeak t) (map snd (timers (afterPlayback w))).
Proof.
  intros H. unfold afterPlayback.
  set (w1 := if continuousListening w && negb (isListening w)
             then setTimeout 1500%N TStartContinuousListening w else w).
  assert (Q : speechQueue w1 = speechQueue w)
    by (unfold w1; now destruct (continuousListening w && negb (isListening w))).
  rewrite Q, H. cbv zeta. unfold setTimeout at 1.
  change (timers (set_timers ?l _)) with l. apply insertTimer_In.
Qed.

End Playback.

(** C2, as the code has it.  A touch while [isPlaying] is set stops the
    playback at once (the current Audio is paused and released, the
    synthesiser cancelled, [isPlaying] cleared) and does nothing else: the
    speech queue keeps its entries, no timer is set, and recognition is
    neither started nor scheduled to start. *)
Theorem touch_stops_playback_only (w : World) :
  isPlaying w = true ->
  isPlaying (handleTouchControl w) = false
  /\ currentAudio (handleTouchControl w) = None
  /\ synth (handleTouchControl w) = None
  /\ (forall a, currentAudio w = Some a ->
                audioPlays a (handleTouchControl w) = false)
  /\ speechQueue (handleTouchControl w) = speechQueue w
  /\ timers (handleTouchControl w) = timers w
  /\ isListening (handleTouchControl w) = isListening w
  /\ recState (handleTouchControl w) = recState w.
Proof.
  intros H. unfold handleTouchControl. rewrite H.
  destruct (stopAllAudio_fields w) as (H1 & H2 & H3 & H4 & H5 & H6 & _ & H8 & _).
  repeat split; try assumption.
  intros a Ha. now apply stopAllAudio_pauses_current.
Qed.

(** C3, as the code has it.  [speak] while [isPlaying] is set appends to
    the queue without any cap: after any number of such calls the queue
    holds its old entries followed by all the new ones.  The cap is applied
    when a playback finishes: the handler takes the oldest entry to speak
    it next and, if more than 2 entries remain, drops them all, so it
    leaves at most 2 entries. *)
Theorem queue_capped_on_dequeue_only (w : World) (texts : list string) :
  isPlaying w = true ->
  speechQueue (speakAll texts w) = speechQueue w ++ texts
  /\ speechQueue (audio_onended (speakAll texts w))
     = afterShift (speechQueue w ++ texts)
  /\ speechQueue (utterance_onend (speakAll texts w))
     = afterShift (speechQueue w ++ texts)
  /\ length (afterShift (speechQueue w ++ texts)) <= 2
  /\ (forall t rest, speechQueue w ++ texts = t :: rest ->
       In (TSpeak t) (map snd (timers (audio_onended (speakAll texts w))))
       /\ In (TSpeak t) (map snd (timers (utterance_onend (speakAll texts w))))).
Proof.
  intros H.
  assert (Q : speechQueue (speakAll texts w) = speechQueue w ++ texts)
    by now rewrite speakAll_while_playing.
  split; [exact Q|].
  unfold audio_onended, utterance_onend.
  split; [rewrite afterPlayback_queue; simpl; now rewrite Q|].
  split; [rewrite afterPlayback_queue; simpl; now rewrite Q|].
  split; [apply afterShift_bound|].
  intros t rest E. rewrite <- Q in E.
  split; apply afterPlayback_speaks_oldest with (rest := rest); exact E.
Qed.

(** C9, as the code has it.  A second [stopAllAudio] right after a first
    changes no field of the program or of the browser: after one call as
    after two, [isPlaying] is clear, no current Audio is held and the
    synthesiser is silent, while the speech queue still holds what it held
    before the first call.  The second call finds no Audio to pause and
    only repeats the two calls to the synthesiser. *)
Theorem stopAllAudio_idempotent (w : World) :
  set_log [] (stopAllAudio (stopAllAudio w)) = set_log [] (stopAllAudio w)
  /\ log (stopAllAudio (stopAllAudio w))
     = log (stopAllAudio w) ++ [SynthCancel; SynthPause]
  /\ isPlaying (stopAllAudio (stopAllAudio w)) = false
  /\ currentAudio (stopAllAudio (stopAllAudio w)) = None
  /\ synth (stopAllAudio (stopAllAudio w)) = None
  /\ speechQueue (stopAllAudio (stopAllAudio w)) = speechQueue w.
Proof.
  destruct (stopAllAudio_fields w) as (H1 & H2 & H3 & H4 & _).
  destruct (stopAllAudio_when_silent (stopAllAudio w) H2 H3 H1) as (E & L).
  destruct (stopAllAudio_fields (stopAllAudio w)) as (G1 & G2 & G3 & G4 & _).
  repeat split; try assumption.
  now rewrite G4.
Qed.

Lemma touch_stops_playback_only_witness :
  isPlaying (handleTouchControl (after twoAnswersRun desktop)) = false
  /\ speechQueue (handleTouchControl (after twoAnswersRun desktop))
     = ["on the table"].
Proof.
  destruct (touch_stops_playback_only (after twoAnswersRun desktop) eq_refl)
    as (H1 & _ & _ & _ & H5 & _).
  split; [exact H1 | rewrite H5; reflexivity].
Defined.

(** C2 as the specification words it fails.  After the two answers the
    first is being spoken and the second waits; a touch then leaves the
    second in the queue, sets no timer and starts nothing: the program sits
    in Idle with the microphone closed. *)
Lemma touch_leaves_queue_and_idle :
  run twoAnswersRun desktop = Some (after twoAnswersRun desktop)
  /\ turnState (after twoAnswersRun desktop) = Speaking
  /\ step (Ext 900 Touch) (after twoAnswersRun desktop)
     = Some (after (twoAnswersRun ++ [Ext 900 Touch]) desktop)
  /\ speechQueue (after (twoAnswersRun ++ [Ext 900 Touch]) desktop)
     = ["on the table"]
  /\ turnState (after (twoAnswersRun ++ [Ext 900 Touch]) desktop) = Idle
  /\ micArmed (after (twoAnswersRun ++ [Ext 900 Touch]) desktop) = false
  /\ timers (after (twoAnswersRun ++ [Ext 900 Touch]) desktop) = [].
Proof. vm_compute. repeat split; reflexivity. Qed.

Lemma queue_capped_on_dequeue_only_witness :
  speechQueue (speakAll ["one"; "two"; "three"; "four"] desktop)
  = ["one"; "two"; "three"; "four"]
  /\ speechQueue
       (utterance_onend (speakAll ["one"; "two"; "three"; "four"] desktop)) = [].
Proof.
  destruct (queue_capped_on_dequeue_only desktop
              ["one"; "two"; "three"; "four"] eq_refl) as (H1 & _ & H3 & _).
  split; [exact H1 | rewrite H3; reflexivity].
Defined.

(** C3 as the specification words it fails.  While the welcome is pending,
    three calls of [speak] in a row leave three entries in the queue, more
    than the cap, the oldest among them; and when a playback then finishes
    with four entries queued, the oldest is taken to be spoken and the three
    most recent are dropped. *)
Lemma enqueue_has_no_cap :
  isPlaying desktop = true
  /\ speechQueue desktop = []
  /\ speechQueue (speakAll ["one"; "two"; "three"] desktop)
     = ["one"; "two"; "three"]
  /\ 2 < length (speechQueue (speakAll ["one"; "two"; "three"] desktop))
  /\ speechQueue
       (utterance_onend (speakAll ["one"; "two"; "three"; "four"] desktop)) = []
  /\ In (TSpeak "one")
       (map snd (timers
          (utterance_onend (speakAll ["one"; "two"; "three"; "four"] desktop)))).
Proof. vm_compute. repeat split; auto. Qed.

(** C9 as the specification words it fails: with an entry waiting in the
    queue, two calls of [stopAllAudio] in a row leave it there. *)
Lemma stopAllAudio_keeps_queue :
  run twoAnswersRun desktop = Some (after twoAnswersRun desktop)
  /\ speechQueue (stopAllAudio (stopAllAudio (after twoAnswersRun desktop)))
     = ["on the table"]
  /\ speechQueue (stopAllAudio (after twoAnswersRun desktop))
     = ["on the table"].
Proof. vm_compute. repeat split; reflexivity. Qed.

(** ** Transcripts, the watchdog and recognition errors *)

Section Recognition.

Ltac log_tail :=
  first [ exists []; rewrite app_nil_r; reflexivity
        | rewrite <- ?app_assoc; eexists; reflexivity ].

Lemma speak_extends (text : string) : extends (speak text).
Proof.
  intros w. unfold speak, stopAllAudio, recognition_stop.
  destruct w as [q ca ip rc il cl mi hs rs pl na sy tp qs tm nw lg mu cr ss ek].
  destruct ip, rc, il, rs, ca; simpl; log_tail.
Qed.

Lemma stopAllAudio_extends : extends stopAllAudio.
Proof.
  intros w. unfold stopAllAudio.
  destruct w as [q ca ip rc il cl mi hs rs pl na sy tp qs tm nw lg mu cr ss ek].
  destruct ca; simpl; log_tail.
Qed.

Lemma handleVoiceCommand_extends (command : string) :
  extends (handleVoiceCommand command).
Proof.
  intros w. unfold handleVoiceCommand.
  destruct (includes (toLowerCase command) "help"); [apply speak_extends|].
  destruct (includes (toLowerCase command) "stop"
            || includes (toLowerCase command) "quiet");
    [apply stopAllAudio_extends|].
  destruct (cameraReady w); [|apply speak_extends].
  unfold askAboutScene. simpl. eexists; reflexivity.
Qed.

Lemma log_recognition_stop (w : World) :
  log (recognition_stop w) = log w ++ [RecStop].
Proof. unfold recognition_stop. now destruct w as [? ? ? ? ? ? ? ? [] ]. Qed.

Lemma accepted_transcript_stops_recognition (w : World) (t : string) :
  exists l,
    log (handleVoiceCommand t (recognition_stop w)) = log w ++ RecStop :: l.
Proof.
  destruct (handleVoiceCommand_extends t (recognition_stop w)) as [l Hl].
  exists l. rewrite Hl, log_recognition_stop, <- app_assoc. reflexivity.
Qed.

Lemma log_grows_neq (w w' : World) (a : Action) (l : list Action) :
  log w' = log w ++ a :: l -> w' <> w.
Proof.
  intros H E. subst w'. apply (f_equal (@length Action)) in H.
  rewrite length_app in H. simpl in H. lia.
Qed.

Lemma turnState_Speaking (w : World) :
  turnState w = Speaking <-> isPlaying w = true.
Proof.
  unfold turnState. destruct (isPlaying w); [tauto|].
  destruct (0 <? queries w), (isListening w); split; discriminate.
Qed.

End Recognition.

(** C4, as the code has it.  The handler of results never looks at the
    turn state: in every state a result that is not final is ignored, and a
    final one is ignored exactly when the filter rejects its transcript; a
    final transcript that the filter accepts stops recognition and is
    handled as a command, also while a query is in flight or speech is
    playing. *)
Theorem transcript_judged_by_filter_alone (w : World) (text : string) :
  recognition_onresult false text w = w
  /\ (recognition_onresult true text w = w
      <-> acceptsTranscript (trim text) = false)
  /\ ((exists l, log (recognition_onresult true text w) = log w ++ RecStop :: l)
      <-> acceptsTranscript (trim text) = true).
Proof.
  unfold recognition_onresult.
  destruct (accepted_transcript_stops_recognition w (trim text)) as [l Hl].
  destruct (acceptsTranscript (trim text)) eqn:A; repeat split;
    try reflexivity; try discriminate.
  - intros E. exfalso. exact (log_grows_neq _ _ _ _ Hl E).
  - exists l. exact Hl.
  - intros [l' Hl']. exfalso. exact (log_grows_neq w w _ _ Hl' eq_refl).
Qed.

(** C4 as the specification words it fails.  One second after the first
    question recognition is running again while the query is in flight
    (Processing); a second question is then accepted: recognition is
    stopped and a second query leaves. *)
Lemma transcript_accepted_while_processing :
  run questionRun desktop = Some (after questionRun desktop)
  /\ turnState (after questionRun desktop) = Processing
  /\ step (Ext 1000 (RecResult true "where is my bag")) (after questionRun desktop)
     = Some (recognition_onresult true "where is my bag"
               (set_now 8000%N (after questionRun desktop)))
  /\ log (recognition_onresult true "where is my bag"
            (set_now 8000%N (after questionRun desktop)))
     = log (after questionRun desktop) ++ [RecStop; Query "where is my bag"]
  /\ queries (recognition_onresult true "where is my bag"
                (set_now 8000%N (after questionRun desktop))) = 2.
Proof. vm_compute. repeat split; reflexivity. Qed.

Lemma turnState_Processing (w : World) :
  turnState w = Processing -> isPlaying w = false.
Proof.
  unfold turnState. destruct (isPlaying w); [discriminate | reflexivity].
Qed.

(** C5, as the code has it.  The watchdog is gated on [isPlaying] and on
    the continuous mode, not on a query in flight.  While speech is playing
    (Speaking) its tick, its delayed restart and its retry all leave
    everything as it was.  While a query is in flight and nothing is
    playing (Processing), with the continuous mode on, the tick stops a
    recognition that is marked as listening and sets the timer of the
    restart. *)
Theorem watchdog_gated_on_playing (w : World) :
  (turnState w = Speaking ->
   watchdogTick w = w /\ watchdogRestart w = w /\ watchdogRetry w = w)
  /\ (turnState w = Processing ->
      continuousListening w = true -> isListening w = true ->
      log (watchdogTick w) = log w ++ [RecStop]
      /\ isListening (watchdogTick w) = false
      /\ In TWatchdogRestart (map snd (timers (watchdogTick w)))).
Proof.
  split.
  - intros H. apply turnState_Speaking in H.
    unfold watchdogTick, watchdogRestart, watchdogRetry. rewrite H.
    rewrite !andb_false_r. simpl. repeat split.
  - intros H1 H2 H3. apply turnState_Processing in H1.
    unfold watchdogTick. rewrite H1, H2, H3. simpl.
    repeat split.
    + apply log_recognition_stop.
    + unfold setTimeout. simpl. apply insertTimer_In.
Qed.

Lemma watchdog_gated_on_playing_witness :
  watchdogTick desktop = desktop
  /\ log (watchdogTick (after phoneQuestionRun phone))
     = log (after phoneQuestionRun phone) ++ [RecStop].
Proof.
  assert (S : turnState desktop = Speaking) by (vm_compute; reflexivity).
  assert (P : turnState (after phoneQuestionRun phone) = Processing)
    by (vm_compute; reflexivity).
  assert (C : continuousListening (after phoneQuestionRun phone) = true)
    by (vm_compute; reflexivity).
  assert (L : isListening (after phoneQuestionRun phone) = true)
    by (vm_compute; reflexivity).
  destruct (watchdog_gated_on_playing desktop) as [H _].
  destruct (watchdog_gated_on_playing (after phoneQuestionRun phone)) as [_ G].
  destruct (H S) as (H1 & _). destruct (G P C L) as (G1 & _).
  split; [exact H1 | exact G1].
Defined.

(** C5 as the specification words it fails.  On a phone the user asks a
    question 100 ms before the watchdog is due.  The tick comes with the
    query in flight (Processing) and stops recognition; 200 ms later its
    restart opens the microphone again, the query still in flight. *)
Lemma watchdog_restarts_while_processing :
  run phoneQuestionRun phone = Some (after phoneQuestionRun phone)
  /\ turnState (after phoneQuestionRun phone) = Processing
  /\ map snd (firstn 1 (timers (after phoneQuestionRun phone))) = [TWatchdog]
  /\ log (after (phoneQuestionRun ++ [Fire]) phone)
     = log (after phoneQuestionRun phone) ++ [RecStop]
  /\ turnState (after (phoneQuestionRun ++ [Fire]) phone) = Processing
  /\ run (phoneQuestionRun ++ [Fire; Ext 100 RecEnd; Fire]) phone
     = Some (after (phoneQuestionRun ++ [Fire; Ext 100 RecEnd; Fire]) phone)
  /\ log (after (phoneQuestionRun ++ [Fire; Ext 100 RecEnd; Fire]) phone)
     = log (after phoneQuestionRun phone) ++ [RecStop; RecStart]
  /\ turnState (after (phoneQuestionRun ++ [Fire; Ext 100 RecEnd; Fire]) phone)
     = Processing
  /\ micArmed (after (phoneQuestionRun ++ [Fire; Ext 100 RecEnd; Fire]) phone)
     = true.
Proof. vm_compute. repeat split; reflexivity. Qed.

(** C8, as the code has it.  An error of recognition other than 'no-speech'
    and 'network', such as a refused microphone, only clears [isListening]:
    nothing is spoken and the continuous mode stays on.  When the browser
    has no speech recognition, the constructor speaks of it once, leaves
    [recognition] empty and the continuous mode on, and schedules no start
    of listening; and without [recognition], [startContinuousListening]
    does nothing. *)
Theorem recognition_errors_as_handled
    (w : World) (error : string) (mobile camera : bool) (key : string) :
  error <> "no-speech" -> error <> "network" ->
  recognition_onerror error w = set_isListening false w
  /\ continuousListening (recognition_onerror error w) = continuousListening w
  /\ log (recognition_onerror error w) = log w
  /\ recognition (boot mobile camera SrMissing key) = false
  /\ continuousListening (boot mobile camera SrMissing key) = true
  /\ map snd (timers (boot mobile camera SrMissing key))
     = TSpeakResume "Sorry, speech recognition is not supported in your browser. Please use Chrome or Safari."
       :: (if mobile then [] else [TStartCamera])
  /\ startContinuousListening (set_recognition false w) = set_recognition false w.
Proof.
  intros H1 H2.
  apply String.eqb_neq in H1. apply String.eqb_neq in H2.
  assert (E : recognition_onerror error w = set_isListening false w).
  { unfold recognition_onerror. now rewrite H1, H2. }
  rewrite E. repeat split; try (destruct mobile; reflexivity).
Qed.

Lemma recognition_errors_as_handled_witness :
  recognition_onerror "not-allowed" (after launchRun desktop)
  = set_isListening false (after launchRun desktop)
  /\ recognition desktopDeaf = false.
Proof.
  destruct (recognition_errors_as_handled (after launchRun desktop)
              "not-allowed" false true "your_elevenlabs_api_key_here")
    as (H1 & _ & _ & H4 & _); [discriminate | discriminate |].
  split; [exact H1 | exact H4].
Defined.

(** In a world where recognition has just been started, nothing plays and
    the continuous mode is on, a refused start comes back to such a world
    with one more start made and nothing said. *)
Lemma denied_round_repeats (w : World) :
  refusedStart w ->
  exists w', run deniedRound w = Some w'
             /\ refusedStart w'
             /\ log w' = log w ++ [RecStart]
             /\ speechQueue w' = speechQueue w.
Proof.
  unfold refusedStart.
  destruct w as [q ca ip rc il cl mi hs rs pl na sy tp qs tm nw lg mu cr ss ek].
  intros H. simpl in H. destruct H as (-> & -> & -> & -> & -> & ->).
  match goal with
  | |- context [run deniedRound ?w] => exists (after deniedRound w)
  end.
  vm_compute. repeat split.
Qed.

Lemma run_app (evs1 evs2 : list Event) (w : World) :
  run (evs1 ++ evs2) w
  = match run evs1 w with
    | Some w' => run evs2 w'
    | None => None
    end.
Proof.
  revert w. induction evs1 as [|ev r IH]; intros w; [reflexivity|].
  cbn [app run]. destruct (step ev w); [apply IH | reflexivity].
Qed.

Lemma denied_rounds_repeat (n : nat) (w : World) :
  refusedStart w ->
  exists w', run (deniedRounds n) w = Some w'
             /\ refusedStart w'
             /\ log w' = log w ++ repeat RecStart n
             /\ speechQueue w' = speechQueue w.
Proof.
  revert w. induction n as [|n IH]; intros w Hw.
  - exists w. split; [reflexivity|]. split; [exact Hw|].
    split; [|reflexivity]. cbn [repeat]. now rewrite app_nil_r.
  - destruct (denied_round_repeats w Hw) as (w1 & R1 & I1 & L1 & Q1).
    destruct (IH w1 I1) as (w2 & R2 & I2 & L2 & Q2).
    exists w2. split; [|split; [exact I2|split]].
    + change (deniedRounds (S n)) with (deniedRound ++ deniedRounds n).
      now rewrite run_app, R1.
    + rewrite L2, L1, <- app_assoc. reflexivity.
    + now rewrite Q2.
Qed.

(** C8 as the specification words it fails.  The microphone is refused:
    each start is answered by 'not-allowed' and the end of recognition.
    Nothing is spoken about it, the continuous mode stays on, and once the
    welcome is over every end is followed by a new start one second later:
    four starts within 8 s here, and as many more as there are refusals. *)
Lemma denied_microphone_retried :
  run deniedRun desktop = Some (after deniedRun desktop)
  /\ continuousListening (after deniedRun desktop) = true
  /\ log (after deniedRun desktop)
     = [SynthCancel; SynthPause; SynthCancel;
        SynthSpeak "BlindVision Assistant ready. Just speak to ask me questions.";
        RecStart; RecStart; RecStart; RecStart]
  /\ speechQueue (after deniedRun desktop) = []
  /\ refusedStart (after deniedRun desktop).
Proof. vm_compute. repeat split; reflexivity. Qed.

(** ** Microphone and speaker together *)

Section Exclusion.

(** [speak] closes the microphone before it claims the speaker ... *)
Lemma speak_closes_microphone (text : string) (w : World) :
  isPlaying w = false -> recognition w = true -> isListening w = true ->
  micArmed (speak text w) = false /\ isPlaying (speak text w) = true.
Proof.
  intros H1 H2 H3. unfold speak. rewrite H1, H2, H3. simpl.
  unfold recognition_stop, stopAllAudio, micArmed.
  destruct w as [q ca ip rc il cl mi hs rs pl na sy tp qs tm nw lg mu cr ss ek].
  destruct rs, ca; simpl; split; reflexivity.
Qed.

(** ... and the restart set by [recognition.onend] looks at [isPlaying]
    again when its second has passed ... *)
Lemma onEndRestart_checks_playing (w : World) :
  isPlaying w = true -> onEndRestart w = w.
Proof.
  intros H. unfold onEndRestart. rewrite H. now rewrite andb_false_r.
Qed.

(** ... but [startContinuousListening] itself, which the timers of
    [startApp] and of the playback handlers call directly, does not. *)
Lemma startContinuousListening_ignores_playing (w : World) :
  isPlaying w = true -> recognition w = true -> isListening w = false ->
  recState w = RecIdle ->
  micArmed (startContinuousListening w) = true
  /\ isPlaying (startContinuousListening w) = true
  /\ isListening (startContinuousListening w) = true.
Proof.
  intros H1 H2 H3 H4. unfold startContinuousListening, recognition_start.
  rewrite H2, H3. simpl. rewrite H4.
  destruct w as [q ca ip rc il cl mi hs rs pl na sy tp qs tm nw lg mu cr ss ek].
  simpl in *. subst. destruct mu, mi; simpl; repeat split.
Qed.

End Exclusion.

(** Scenario A runs as the specification tells it, from Listening back to
    Listening. *)
Example scenarioA_runs :
  run scenarioA desktop = Some (after scenarioA desktop)
  /\ turnState (after scenarioA desktop) = Listening
  /\ micArmed (after scenarioA desktop) = true
  /\ playbackArmed (after scenarioA desktop) = false
  /\ log (after scenarioA desktop)
     = [SynthCancel; SynthPause; SynthCancel;
        SynthSpeak "BlindVision Assistant ready. Just speak to ask me questions.";
        RecStart; RecStop; Query "what do you see"; RecStart; RecStop;
        SynthCancel; SynthPause; SynthCancel; SynthSpeak "a chair ahead";
        RecStart].
Proof. vm_compute. repeat split; reflexivity. Qed.

(** C1 fails on the code.  The page loads on a desktop browser; the welcome
    starts to be spoken at 300 ms; at 3.5 s the timer of [startApp] calls
    [startContinuousListening], which starts recognition without looking at
    [isPlaying].  The welcome is still being spoken: microphone and speaker
    are armed together, and both flags are set. *)
Theorem mic_and_speaker_armed_together :
  run launchRun desktop = Some (after launchRun desktop)
  /\ now (after launchRun desktop) = 3500%N
  /\ synth (after launchRun desktop)
     = Some "BlindVision Assistant ready. Just speak to ask me questions."
  /\ micArmed (after launchRun desktop) = true
  /\ playbackArmed (after launchRun desktop) = true
  /\ isListening (after launchRun desktop) = true
  /\ isPlaying (after launchRun desktop) = true.
Proof. vm_compute. repeat split; reflexivity. Qed.

(** The same through the playback handlers: when a speech ends with another
    one queued, the queued speech is started after 500 ms and listening
    after 1500 ms, into the speech that has just begun. *)
Lemma mic_opened_into_queued_speech :
  run (twoAnswersRun ++ [Ext 2000 SynthEnd; Fire; Fire; Fire]) desktop
  = Some (after (twoAnswersRun ++ [Ext 2000 SynthEnd; Fire; Fire; Fire]) desktop)
  /\ synth (after (twoAnswersRun ++ [Ext 2000 SynthEnd; Fire; Fire; Fire]) desktop)
     = Some "on the table"
  /\ micArmed (after (twoAnswersRun ++ [Ext 2000 SynthEnd; Fire; Fire; Fire]) desktop)
     = true
  /\ isPlaying (after (twoAnswersRun ++ [Ext 2000 SynthEnd; Fire; Fire; Fire]) desktop)
     = true.
Proof. vm_compute. repeat split; reflexivity. Qed.

(** C10 fails on the code.  [speak] sets [isPlaying] 300 ms and a request
    before its audio exists, and [stopAllAudio] clears it in between
    without cancelling the pending speech.  Here the first answer arrives
    and [speak] is waiting; the user touches the screen; the second answer
    arrives, finds [isPlaying] clear and is not queued; both requests to
    ElevenLabs are answered and both audios play at once. *)
Theorem two_playbacks_at_once :
  run touchBetweenAnswersRun desktopEleven
  = Some (after touchBetweenAnswersRun desktopEleven)
  /\ playing (after touchBetweenAnswersRun desktopEleven) = [1; 2]
  /\ playbacks (after touchBetweenAnswersRun desktopEleven) = 2
  /\ speechQueue (after touchBetweenAnswersRun desktopEleven) = [].
Proof. vm_compute. repeat split; reflexivity. Qed.

(** * Further properties of the code *)

(** ** Strings *)

Section Strings.

Lemma lowerChar_idem (c : ascii) : lowerChar (lowerChar c) = lowerChar c.
Proof.
  destruct c as [[] [] [] [] [] [] [] []]; vm_compute; reflexivity.
Qed.

Lemma lowerChar_space (c : ascii) : isSpace (lowerChar c) = isSpace c.
Proof.
  destruct c as [[] [] [] [] [] [] [] []]; vm_compute; reflexivity.
Qed.

Lemma toLowerCase_idem (s : string) : toLowerCase (toLowerCase s) = toLowerCase s.
Proof.
  induction s as [|c r IH]; simpl; [reflexivity|].
  now rewrite lowerChar_idem, IH.
Qed.

Lemma spaces_toLowerCase (s : string) : spaces (toLowerCase s) = spaces s.
Proof.
  induction s as [|c r IH]; simpl; [reflexivity|].
  now rewrite lowerChar_space, IH.
Qed.

Lemma prefix_spec (p s : string) :
  String.prefix p s = true <-> exists post, s = (p ++ post)%string.
Proof.
  revert s. induction p as [|a p IH]; intros s.
  - split; [intros _; now exists s | intros _; now destruct s].
  - destruct s as [|b s]; simpl.
    + split; [discriminate | intros [x Hx]; discriminate].
    + destruct (Ascii.ascii_dec a b) as [->|N].
      * rewrite IH. split; intros [x Hx]; exists x;
          [now rewrite Hx | now injection Hx].
      * split; [discriminate|]. intros [x Hx]. injection Hx as E _.
        now destruct N.
Qed.

(** [s.includes(sub)] holds exactly when [s] is some text, then [sub], then
    some text. *)
Lemma includes_spec (s sub : string) :
  includes s sub = true <->
  exists pre post, s = (pre ++ sub ++ post)%string.
Proof.
  induction s as [|c r IH].
  - cbn [includes]. rewrite orb_false_r, prefix_spec. split.
    + intros [post H]. now exists EmptyString, post.
    + intros [pre [post H]]. destruct pre; [now exists post | discriminate].
  - cbn [includes]. rewrite orb_true_iff, prefix_spec, IH. split.
    + intros [[post H]|[pre [post H]]].
      * now exists EmptyString, post.
      * exists (String c pre), post. simpl. now rewrite H.
    + intros [pre [post H]]. destruct pre as [|a pre].
      * left. now exists post.
      * right. injection H as _ H. now exists pre, post.
Qed.

Lemma append_assoc (a b c : string) :
  ((a ++ b) ++ c = a ++ (b ++ c))%string.
Proof. induction a as [|x a IH]; simpl; [reflexivity | now rewrite IH]. Qed.

(** A text that includes [a ++ b] includes [b]. *)
Lemma includes_tail (s a b : string) :
  includes s (a ++ b) = true -> includes s b = true.
Proof.
  rewrite !includes_spec. intros [pre [post H]].
  exists (pre ++ a)%string, post. now rewrite H, !append_assoc.
Qed.

End Strings.

(** ** The utterance filter, further *)

(** X1.  A final transcript of one word is never accepted, whatever the
    word, and neither is one of two or three words none of which is a
    question word: the handler leaves everything as it was.  Said alone,
    'stop', 'quiet' and 'help' never reach [handleVoiceCommand]. *)
Theorem few_words_rejected (w : World) (text : string) :
  spaces (trim text) = 0
  \/ (spaces (trim text) <= 2
      /\ forall q, In q questionWords -> ~ In q (wordsOf (trim text))) ->
  acceptsTranscript (trim text) = false
  /\ recognition_onresult true text w = w.
Proof.
  intros H.
  assert (R : acceptsTranscript (trim text) = false).
  { unfold acceptsTranscript.
    assert (L : length (wordsOf (trim text)) = S (spaces (trim text)))
      by (unfold wordsOf; now rewrite split_length, spaces_toLowerCase).
    destruct (isEcho (trim text)); [reflexivity|]. simpl.
    destruct H as [H|[H1 H2]].
    - rewrite L, H. simpl. now rewrite andb_false_r.
    - assert (Q : hasQuestionWord (trim text) = false).
      { destruct (hasQuestionWord (trim text)) eqn:E; [|reflexivity].
        apply hasQuestionWord_spec in E. destruct E as [q [Q1 Q2]].
        now destruct (H2 q Q1). }
      rewrite Q. simpl. rewrite orb_false_r. apply Nat.ltb_ge. lia. }
  split; [exact R|]. unfold recognition_onresult. now rewrite R.
Qed.

Lemma few_words_rejected_witness :
  recognition_onresult true "stop" desktop = desktop
  /\ recognition_onresult true "be quiet now" desktop = desktop.
Proof.
  split.
  - apply (few_words_rejected desktop "stop"). left. reflexivity.
  - apply (few_words_rejected desktop "be quiet now"). right.
    split; [vm_compute; lia|].
    intros q Hq Hin. vm_compute in Hq, Hin.
    repeat (destruct Hq as [<-|Hq];
            [repeat (destruct Hin as [Hin|Hin]; [discriminate|]); exact Hin|]).
    exact Hq.
Defined.

(** X2.  The filter does not depend on the case of the letters: two
    transcripts that differ in case only are both accepted or both
    rejected, and a transcript is judged as its lower-case form is. *)
Theorem filter_ignores_case (a b : string) :
  toLowerCase a = toLowerCase b ->
  acceptsTranscript a = acceptsTranscript b
  /\ acceptsTranscript (toLowerCase a) = acceptsTranscript a.
Proof.
  intros H.
  assert (G : forall x y, toLowerCase x = toLowerCase y ->
                          acceptsTranscript x = acceptsTranscript y).
  { intros x y E.
    unfold acceptsTranscript, isEcho, hasQuestionWord, wordsOf.
    now rewrite E. }
  split; [now apply G|]. apply G. apply toLowerCase_idem.
Qed.

Lemma filter_ignores_case_witness :
  acceptsTranscript "WHAT Do You See" = acceptsTranscript "what do you see"
  /\ acceptsTranscript (toLowerCase "WHAT Do You See")
     = acceptsTranscript "WHAT Do You See".
Proof.
  apply (filter_ignores_case "WHAT Do You See" "what do you see"). reflexivity.
Defined.

(** ** Speaking and commands *)

Section Speaking.

Lemma filter_snoc {A : Type} (f : A -> bool) (l : list A) (a : A) :
  f a = false -> filter f (l ++ [a]) = filter f l.
Proof. intros H. rewrite filter_app. simpl. rewrite H. apply app_nil_r. Qed.

(** What [stopAllAudio] leaves alone. *)
Lemma stopAllAudio_frame (w : World) :
  queriesOf (stopAllAudio w) = queriesOf w
  /\ hasStarted (stopAllAudio w) = hasStarted w
  /\ recognition (stopAllAudio w) = recognition w
  /\ mobileRestartInterval (stopAllAudio w) = mobileRestartInterval w
  /\ ttsPending (stopAllAudio w) = ttsPending w.
Proof.
  unfold stopAllAudio, queriesOf.
  destruct w as [q ca ip rc il cl mi hs rs pl na sy tp qs tm nw lg mu cr ss ek].
  destruct ca; simpl; rewrite ?filter_snoc by reflexivity; repeat split.
Qed.

(** What [speak] leaves alone, and what it always does. *)
Lemma speak_frame (text : string) (w : World) :
  isPlaying (speak text w) = true
  /\ queries (speak text w) = queries w
  /\ queriesOf (speak text w) = queriesOf w
  /\ hasStarted (speak text w) = hasStarted w
  /\ recognition (speak text w) = recognition w
  /\ continuousListening (speak text w) = continuousListening w
  /\ isListening (speak text w) = isListening w.
Proof.
  unfold speak, stopAllAudio, recognition_stop, queriesOf.
  destruct w as [q ca ip rc il cl mi hs rs pl na sy tp qs tm nw lg mu cr ss ek].
  destruct ip, rc, il, rs, ca; simpl;
    rewrite ?filter_snoc by reflexivity; repeat split.
Qed.

Lemma speak_willSpeak (text : string) (w : World) :
  willSpeak text (speak text w).
Proof.
  unfold willSpeak, speak. destruct (isPlaying w).
  - left. simpl. apply in_or_app. right. simpl. auto.
  - right. unfold setTimeout.
    change (timers (set_timers ?l _)) with l. apply insertTimer_In.
Qed.

End Speaking.

(** X3.  [speak] never drops a text and always ends with [isPlaying] set:
    the text either waits in the queue or waits for the 300 ms pause to
    end.  It issues no query and leaves the listening flags as they were
    (it stops the recogniser but does not clear [isListening]). *)
Theorem speak_keeps_text (text : string) (w : World) :
  willSpeak text (speak text w)
  /\ isPlaying (speak text w) = true
  /\ queriesOf (speak text w) = queriesOf w
  /\ isListening (speak text w) = isListening w
  /\ continuousListening (speak text w) = continuousListening w.
Proof.
  destruct (speak_frame text w) as (H1 & _ & H3 & _ & _ & H6 & H7).
  repeat split; try assumption. apply speak_willSpeak.
Qed.

(** X4.  When [captureFrame] gives no image, no command issues a query;
    a command that is not for help nor for silence then has the camera
    message on its way to the speaker. *)
Theorem no_image_no_query (command : string) (w : World) :
  cameraReady w = false ->
  queriesOf (handleVoiceCommand command w) = queriesOf w
  /\ queries (handleVoiceCommand command w) = queries w
  /\ (includes (toLowerCase command) "help" = false ->
      includes (toLowerCase command) "stop" = false ->
      includes (toLowerCase command) "quiet" = false ->
      willSpeak noImageText (handleVoiceCommand command w)).
Proof.
  intros C. unfold handleVoiceCommand. rewrite C.
  destruct (includes (toLowerCase command) "help").
  - destruct (speak_frame helpText w) as (_ & H2 & H3 & _).
    repeat split; try assumption; discriminate.
  - destruct (includes (toLowerCase command) "stop"); simpl.
    + destruct (stopAllAudio_frame w) as (H1 & _).
      destruct (stopAllAudio_fields w) as (_ & _ & _ & _ & _ & _ & _ & _ & H9).
      repeat split; try assumption; discriminate.
    + destruct (includes (toLowerCase command) "quiet").
      * destruct (stopAllAudio_frame w) as (H1 & _).
        destruct (stopAllAudio_fields w) as (_ & _ & _ & _ & _ & _ & _ & _ & H9).
        repeat split; try assumption; discriminate.
      * destruct (speak_frame noImageText w) as (_ & H2 & H3 & _).
        repeat split; try assumption. intros _ _ _. apply speak_willSpeak.
Qed.

Lemma no_image_no_query_witness :
  queriesOf (handleVoiceCommand "what do you see"
               (pristine false false SrAvailable ""))
  = []
  /\ willSpeak noImageText
       (handleVoiceCommand "what do you see"
          (pristine false false SrAvailable "")).
Proof.
  destruct (no_image_no_query "what do you see"
              (pristine false false SrAvailable "") eq_refl) as (H1 & _ & H3).
  split; [exact H1 | apply H3; reflexivity].
Defined.

(** X5.  A command that contains 'help' gets the help text and nothing
    else, also when it contains 'stop'; a command without 'help' that
    contains 'stop' or 'quiet' silences the speaker and speaks nothing, the
    queue keeping its entries.  Neither issues a query, camera or not. *)
Theorem help_and_silence_commands (command : string) (w : World) :
  (includes (toLowerCase command) "help" = true ->
   handleVoiceCommand command w = speak helpText w
   /\ willSpeak helpText (handleVoiceCommand command w)
   /\ queriesOf (handleVoiceCommand command w) = queriesOf w)
  /\ (includes (toLowerCase command) "help" = false ->
      includes (toLowerCase command) "stop" = true
      \/ includes (toLowerCase command) "quiet" = true ->
      handleVoiceCommand command w = stopAllAudio w
      /\ isPlaying (handleVoiceCommand command w) = false
      /\ speechQueue (handleVoiceCommand command w) = speechQueue w
      /\ timers (handleVoiceCommand command w) = timers w
      /\ queriesOf (handleVoiceCommand command w) = queriesOf w).
Proof.
  split.
  - intros H.
    assert (E : handleVoiceCommand command w = speak helpText w)
      by (unfold handleVoiceCommand; now rewrite H).
    rewrite E. destruct (speak_frame helpText w) as (_ & _ & H3 & _).
    repeat split; [apply speak_willSpeak | exact H3].
  - intros H S.
    assert (E : handleVoiceCommand command w = stopAllAudio w).
    { unfold handleVoiceCommand. rewrite H.
      destruct S as [-> | ->]; [reflexivity | now rewrite orb_true_r]. }
    rewrite E. destruct (stopAllAudio_frame w) as (H1 & _).
    destruct (stopAllAudio_fields w) as (G1 & _ & _ & G4 & G5 & _).
    repeat split; assumption.
Qed.

Lemma help_and_silence_commands_witness :
  willSpeak helpText (handleVoiceCommand "please stop and help me" desktop)
  /\ isPlaying (handleVoiceCommand "Please be QUIET now" desktop) = false.
Proof.
  split.
  - apply (proj1 (help_and_silence_commands "please stop and help me" desktop)).
    reflexivity.
  - apply (proj2 (help_and_silence_commands "Please be QUIET now" desktop));
      [reflexivity | right; reflexivity].
Defined.

(** X6.  With an image at hand, a command that is neither for help nor for
    silence issues exactly one query.  Its question is the command as the
    user said it, unless the command contains 'where' and 'glasses': then
    it is the fixed question about glasses.  The test for 'sunglasses'
    never decides, since such a command contains 'glasses'. *)
Theorem one_query_per_command (command : string) (w : World) :
  cameraReady w = true ->
  includes (toLowerCase command) "help" = false ->
  includes (toLowerCase command) "stop" = false ->
  includes (toLowerCase command) "quiet" = false ->
  log (handleVoiceCommand command w)
  = log w ++ [Query (if includes (toLowerCase command) "where"
                        && includes (toLowerCase command) "glasses"
                     then glassesQuestion else command)]
  /\ queries (handleVoiceCommand command w) = S (queries w)
  /\ speechQueue (handleVoiceCommand command w) = speechQueue w
  /\ isPlaying (handleVoiceCommand command w) = isPlaying w.
Proof.
  intros C H1 H2 H3. unfold handleVoiceCommand. rewrite C, H1, H2, H3. simpl.
  assert (G : includes (toLowerCase command) "glasses"
              || includes (toLowerCase command) "sunglasses"
              = includes (toLowerCase command) "glasses").
  { destruct (includes (toLowerCase command) "glasses") eqn:E1;
      [reflexivity|].
    destruct (includes (toLowerCase command) "sunglasses") eqn:E2;
      [|reflexivity].
    apply (includes_tail _ "sun" "glasses") in E2. congruence. }
  rewrite G. unfold askAboutScene. repeat split.
Qed.

Lemma one_query_per_command_witness :
  log (handleVoiceCommand "Where are my sunglasses" (pristine false true SrAvailable ""))
  = [Query glassesQuestion]
  /\ log (handleVoiceCommand "what do you see" (pristine false true SrAvailable ""))
     = [Query "what do you see"].
Proof.
  split.
  - apply (one_query_per_command "Where are my sunglasses"
             (pristine false true SrAvailable "")); reflexivity.
  - apply (one_query_per_command "what do you see"
             (pristine false true SrAvailable "")); reflexivity.
Defined.


(** ** The ElevenLabs request, errors of recognition, the start button *)

Section Requests.

Lemma dropNth_length {A : Type} (i : nat) (l : list A) (x : A) :
  nth_error l i = Some x -> S (length (dropNth i l)) = length l.
Proof.
  revert i. induction l as [|y r IH]; intros [|i] H; simpl in *;
    try discriminate; [reflexivity|].
  now rewrite (IH i H).
Qed.

(** [speakQueued] only moves the head of the queue to a timer. *)
Lemma speakQueued_frame (w : World) :
  isPlaying (speakQueued w) = isPlaying w
  /\ currentAudio (speakQueued w) = currentAudio w
  /\ synth (speakQueued w) = synth w
  /\ playing (speakQueued w) = playing w
  /\ ttsPending (speakQueued w) = ttsPending w
  /\ log (speakQueued w) = log w.
Proof.
  unfold speakQueued. destruct (speechQueue w); repeat split.
Qed.

Lemma audioPlays_snoc (a : nat) (l : list nat) :
  existsb (Nat.eqb a) (l ++ [a]) = true.
Proof.
  rewrite existsb_app. simpl. now rewrite Nat.eqb_refl, orb_true_r.
Qed.

End Requests.

(** X8.  When the request to ElevenLabs fails, the text is not lost: the
    browser voice speaks it.  The failure clears [isPlaying] and it stays
    clear while the browser voice speaks.  When the request succeeds, a new
    Audio plays, is the current one, and [isPlaying] is set.  Either way
    one request less is in flight. *)
Theorem tts_answer_handled (i : nat) (ok : bool) (text : string) (w : World) :
  nth_error (ttsPending w) i = Some text ->
  S (length (ttsPending (ttsResolved i ok w))) = length (ttsPending w)
  /\ (ok = false ->
      synth (ttsResolved i ok w) = Some text
      /\ isPlaying (ttsResolved i ok w) = false
      /\ currentAudio (ttsResolved i ok w) = None
      /\ log (ttsResolved i ok w) = log w ++ [SynthCancel; SynthSpeak text])
  /\ (ok = true ->
      currentAudio (ttsResolved i ok w) = Some (nextAudio w)
      /\ audioPlays (nextAudio w) (ttsResolved i ok w) = true
      /\ isPlaying (ttsResolved i ok w) = true
      /\ synth (ttsResolved i ok w) = synth w
      /\ log (ttsResolved i ok w) = log w ++ [AudioPlay (nextAudio w) text]).
Proof.
  intros H. unfold ttsResolved. rewrite H. cbv zeta.
  split; [|split].
  - destruct ok;
      match goal with
      | |- context [speakQueued ?x] =>
          destruct (speakQueued_frame x) as (_ & _ & _ & _ & E & _); rewrite E
      end; simpl; exact (dropNth_length i _ _ H).
  - intros ->.
    match goal with
    | |- context [speakQueued ?x] =>
        destruct (speakQueued_frame x) as (E1 & E2 & E3 & _ & _ & E6)
    end.
    rewrite E1, E2, E3, E6. unfold speakWithBrowser. simpl.
    repeat split. now rewrite <- app_assoc.
  - intros ->.
    match goal with
    | |- context [speakQueued ?x] =>
        destruct (speakQueued_frame x) as (E1 & E2 & E3 & E4 & _ & E6)
    end.
    unfold audioPlays. rewrite E1, E2, E3, E4, E6. simpl.
    repeat split. apply audioPlays_snoc.
Qed.

Lemma tts_answer_handled_witness :
  synth (ttsResolved 0 false (after [Fire] desktopEleven))
  = Some "BlindVision Assistant ready. Just speak to ask me questions."
  /\ isPlaying (ttsResolved 0 false (after [Fire] desktopEleven)) = false
  /\ audioPlays 0 (ttsResolved 0 true (after [Fire] desktopEleven)) = true.
Proof.
  destruct (tts_answer_handled 0 false
              "BlindVision Assistant ready. Just speak to ask me questions."
              (after [Fire] desktopEleven) eq_refl) as (_ & F & _).
  destruct (tts_answer_handled 0 true
              "BlindVision Assistant ready. Just speak to ask me questions."
              (after [Fire] desktopEleven) eq_refl) as (_ & _ & T).
  destruct (F eq_refl) as (F1 & F2 & _). destruct (T eq_refl) as (_ & T2 & _).
  repeat split; assumption.
Defined.

(** X9.  An error of recognition that arrives while [isPlaying] is set
    never disturbs the playback, whatever its kind: no call reaches the
    browser, no timer is set, the playing audio and the utterance stay;
    [isListening] is cleared, and only a 'network' error leaves a message,
    at the end of the queue. *)
Theorem error_during_playback (error : string) (w : World) :
  isPlaying w = true ->
  log (recognition_onerror error w) = log w
  /\ timers (recognition_onerror error w) = timers w
  /\ isPlaying (recognition_onerror error w) = true
  /\ playing (recognition_onerror error w) = playing w
  /\ synth (recognition_onerror error w) = synth w
  /\ currentAudio (recognition_onerror error w) = currentAudio w
  /\ isListening (recognition_onerror error w) = false
  /\ speechQueue (recognition_onerror error w)
     = if (error =? "network")%string
       then speechQueue w ++ ["Network error. Please check your connection."]
       else speechQueue w.
Proof.
  intros H. unfold recognition_onerror, speak.
  destruct w as [q ca ip rc il cl mi hs rs pl na sy tp qs tm nw lg mu cr ss ek].
  simpl in H. subst ip. simpl.
  destruct (error =? "no-speech")%string eqn:E1.
  - apply String.eqb_eq in E1. subst error. simpl. repeat split.
  - destruct (error =? "network")%string; simpl; repeat split.
Qed.

Lemma error_during_playback_witness :
  log (recognition_onerror "no-speech" (after launchRun desktop))
  = log (after launchRun desktop)
  /\ speechQueue (recognition_onerror "network" (after launchRun desktop))
     = ["Network error. Please check your connection."].
Proof.
  destruct (error_during_playback "no-speech" (after launchRun desktop) eq_refl)
    as (H1 & _).
  destruct (error_during_playback "network" (after launchRun desktop) eq_refl)
    as (_ & _ & _ & _ & _ & _ & _ & H8).
  split; [exact H1 | rewrite H8; reflexivity].
Defined.

(** X10.  The start button works once: a second click, or a click on the
    start screen after the button, changes nothing; [startApp] is not run
    again, so the welcome and the start timers are not doubled. *)
Theorem start_button_once (w : World) :
  handleStartButtonClick (handleStartButtonClick w) = handleStartButtonClick w
  /\ hasStarted (handleStartButtonClick w) = true.
Proof.
  assert (G : hasStarted (handleStartButtonClick w) = true).
  { unfold handleStartButtonClick. destruct (hasStarted w) eqn:E; [exact E|].
    unfold startApp. cbv zeta.
    match goal with
    | |- context [speak ?t ?x] =>
        destruct (speak_frame t x) as (_ & _ & _ & H4 & _)
    end.
    match goal with
    | |- hasStarted (if ?c then _ else _) = _ => destruct c
    end; simpl; now rewrite H4. }
  split; [|exact G].
  unfold handleStartButtonClick at 1. now rewrite G.
Qed.

(** X11.  When nothing is playing and the program is listening, [speak]
    stops the recogniser before it claims the speaker: after the call the
    microphone is closed and [isPlaying] is set. *)
Theorem speak_stops_listening_first (text : string) (w : World) :
  isPlaying w = false -> recognition w = true -> isListening w = true ->
  micArmed (speak text w) = false
  /\ isPlaying (speak text w) = true
  /\ exists l, log (speak text w) = log w ++ RecStop :: l.
Proof.
  intros H1 H2 H3.
  destruct (speak_closes_microphone text w H1 H2 H3) as (G1 & G2).
  split; [exact G1|]. split; [exact G2|].
  unfold speak. rewrite H1, H2, H3. simpl.
  unfold stopAllAudio, recognition_stop.
  destruct w as [q ca ip rc il cl mi hs rs pl na sy tp qs tm nw lg mu cr ss ek].
  destruct rs, ca; simpl; rewrite <- ?app_assoc; eexists; reflexivity.
Qed.

Lemma speak_stops_listening_first_witness :
  micArmed (speak "a chair ahead" (after questionRun desktop)) = false
  /\ isPlaying (speak "a chair ahead" (after questionRun desktop)) = true.
Proof.
  destruct (speak_stops_listening_first "a chair ahead"
              (after questionRun desktop) eq_refl eq_refl eq_refl)
    as (H1 & H2 & _).
  split; assumption.
Defined.

(** ** Stopping and starting recognition by hand *)

Section ByHand.

Lemma no_watchdog_after_clear (l : list (N * Task)) :
  filter (fun dt => isWatchdog (snd dt))
         (filter (fun dt => negb (isWatchdog (snd dt))) l) = [].
Proof.
  induction l as [|[d t] r IH]; simpl; [reflexivity|].
  destruct (isWatchdog t) eqn:E; simpl; [exact IH|].
  now rewrite E.
Qed.

End ByHand.

(** X12.  [stopRecognition] switches listening off for good as far as the
    guarded restarts go: the continuous mode is off, the interval of the
    watchdog is cleared, and afterwards the end of recognition sets no
    restart and the restart of [onend], the tick of the watchdog, its
    restart and its retry all do nothing.  A recognition marked as
    listening is stopped.  Playback and the speech queue are not touched. *)
Theorem stopRecognition_switches_off (w : World) :
  continuousListening (stopRecognition w) = false
  /\ mobileRestartInterval (stopRecognition w) = false
  /\ (mobileRestartInterval w = true -> watchdogsPending (stopRecognition w) = 0)
  /\ (recognition w = true -> isListening (stopRecognition w) = false)
  /\ (recognition w = true -> isListening w = true ->
      micArmed (stopRecognition w) = false)
  /\ timers (recognition_onend (stopRecognition w)) = timers (stopRecognition w)
  /\ onEndRestart (stopRecognition w) = stopRecognition w
  /\ watchdogTick (stopRecognition w) = stopRecognition w
  /\ watchdogRestart (stopRecognition w) = stopRecognition w
  /\ watchdogRetry (stopRecognition w) = stopRecognition w
  /\ isPlaying (stopRecognition w) = isPlaying w
  /\ speechQueue (stopRecognition w) = speechQueue w.
Proof.
  assert (C : continuousListening (stopRecognition w) = false).
  { unfold stopRecognition. cbv zeta.
    match goal with |- continuousListening (set_continuousListening _ _) = _ =>
      reflexivity end. }
  split; [exact C|].
  unfold recognition_onend, onEndRestart, watchdogTick, watchdogRestart,
    watchdogRetry.
  change (continuousListening (set_isListening false (stopRecognition w)))
    with (continuousListening (stopRecognition w)).
  rewrite !C. simpl.
  unfold stopRecognition, clearInterval, recognition_stop, watchdogsPending,
    micArmed.
  destruct w as [q ca ip rc il cl mi hs rs pl na sy tp qs tm nw lg mu cr ss ek].
  destruct rc, il, mi, rs; simpl; repeat split; intros;
    try discriminate; try (rewrite no_watchdog_after_clear; reflexivity).
Qed.

Lemma stopRecognition_switches_off_witness :
  micArmed (stopRecognition (after phoneQuestionRun phone)) = false
  /\ watchdogsPending (after phoneQuestionRun phone) = 1
  /\ watchdogsPending (stopRecognition (after phoneQuestionRun phone)) = 0.
Proof.
  destruct (stopRecognition_switches_off (after phoneQuestionRun phone))
    as (_ & _ & H3 & _ & H5 & _).
  split; [apply H5; reflexivity|].
  split; [reflexivity | apply H3; reflexivity].
Defined.

(** X13.  [startListening], when a recogniser exists and the program is
    not listening, first silences the speaker and empties the speech
    queue; then it starts the recogniser if it is idle, and swallows the
    error if it is not.  It leaves [isPlaying] clear, and it sets neither
    [isListening] nor the continuous mode.  Without a recogniser it only
    speaks of it; when already listening it does nothing. *)
Theorem startListening_silences_first (w : World) :
  (recognition w = true -> isListening w = false ->
   isPlaying (startListening w) = false
   /\ currentAudio (startListening w) = None
   /\ synth (startListening w) = None
   /\ speechQueue (startListening w) = []
   /\ timers (startListening w) = timers w
   /\ isListening (startListening w) = false
   /\ continuousListening (startListening w) = continuousListening w
   /\ (recState w = RecIdle -> micArmed (startListening w) = true))
  /\ (recognition w = true -> isListening w = true -> startListening w = w)
  /\ (recognition w = false ->
      startListening w
      = speak "Speech recognition not available in your browser." w
      /\ recState (startListening w) = recState w).
Proof.
  unfold startListening.
  split; [|split].
  - intros H1 H2. rewrite H1, H2. simpl.
    unfold stopAllAudio, recognition_start, startListeningCatch, micArmed.
    destruct w as [q ca ip rc il cl mi hs rs pl na sy tp qs tm nw lg mu cr ss ek].
    simpl in H2. subst il.
    destruct ca, rs; simpl; repeat split; intros; try discriminate.
  - intros H1 H2. now rewrite H1, H2.
  - intros H1. rewrite H1. simpl. split; [reflexivity|].
    unfold speak, stopAllAudio. rewrite H1. simpl.
    destruct w as [q ca ip rc il cl mi hs rs pl na sy tp qs tm nw lg mu cr ss ek].
    destruct ip, ca; reflexivity.
Qed.

Lemma startListening_silences_first_witness :
  isPlaying (startListening (after twoAnswersRun desktop)) = false
  /\ speechQueue (startListening (after twoAnswersRun desktop)) = []
  /\ micArmed (startListening (after twoAnswersRun desktop)) = true
  /\ startListening (after launchRun desktop) = after launchRun desktop
  /\ recState (startListening desktopDeaf) = RecIdle.
Proof.
  destruct (startListening_silences_first (after twoAnswersRun desktop))
    as (A & _ & _).
  destruct (startListening_silences_first (after launchRun desktop))
    as (_ & B & _).
  destruct (startListening_silences_first desktopDeaf) as (_ & _ & C).
  destruct (A eq_refl eq_refl) as (A1 & _ & _ & A4 & _ & _ & _ & A8).
  destruct (C eq_refl) as (_ & C2).
  split; [exact A1|]. split; [exact A4|]. split; [exact (A8 eq_refl)|].
  split; [exact (B eq_refl eq_refl) | rewrite C2; reflexivity].
Defined.

(** ** The status indicator, the keys and the voice *)

Section Page.

Lemma filter_filter_negb {A : Type} (f : A -> bool) (l : list A) :
  filter f (filter (fun x => negb (f x)) l) = [].
Proof.
  induction l as [|a r IH]; cbn [filter]; [reflexivity|].
  destruct (f a) eqn:E; cbn [negb filter]; [exact IH|].
  now rewrite E.
Qed.

Lemma classListRemove_clean (classes : list string) :
  filter (arrayIncludes statusClasses) (classListRemove statusClasses classes) = [].
Proof. apply filter_filter_negb. Qed.

Lemma classListRemove_keeps (classes : list string) (c : string) :
  arrayIncludes statusClasses c = false ->
  (In c (classListRemove statusClasses classes) <-> In c classes).
Proof.
  intros H. unfold classListRemove. rewrite filter_In, H. simpl. tauto.
Qed.

Lemma statusClassFor_status (type : string) :
  arrayIncludes statusClasses (statusClassFor type) = true.
Proof.
  unfold statusClassFor.
  destruct (type =? "listening")%string; [reflexivity|].
  destruct ((type =? "ready")%string || (type =? "analyzing")%string);
    reflexivity.
Qed.

Lemma filter_nil_not_in {A : Type} (f : A -> bool) (l : list A) (x : A) :
  filter f l = [] -> f x = true -> ~ In x l.
Proof.
  intros H F I.
  assert (G : In x (filter f l)) by (apply filter_In; now split).
  rewrite H in G. exact G.
Qed.

Lemma find_some_first {A : Type} (p : A -> bool) (l : list A) :
  (exists x, In x l /\ p x = true) ->
  exists y, find p l = Some y /\ In y l /\ p y = true.
Proof.
  intros [x [I P]]. destruct (find p l) as [y|] eqn:E.
  - exists y. destruct (find_some _ _ E). auto.
  - now rewrite (find_none _ _ E x I) in P.
Qed.

Lemma firstPreferred_some (ps : list (Voice -> bool)) (vs : list Voice) (v : Voice) :
  firstPreferred ps vs = Some v ->
  In v vs /\ exists p, In p ps /\ p v = true.
Proof.
  induction ps as [|p r IH]; simpl; [discriminate|].
  destruct (find p vs) as [y|] eqn:E.
  - intros H. injection H as ->. destruct (find_some _ _ E) as [I P].
    split; [exact I|]. exists p. auto.
  - intros H. destruct (IH H) as [I [p' [Hp P]]].
    split; [exact I|]. exists p'. auto.
Qed.

Lemma firstPreferred_none (ps : list (Voice -> bool)) (vs : list Voice) :
  firstPreferred ps vs = None <->
  forall p v, In p ps -> In v vs -> p v = false.
Proof.
  induction ps as [|p r IH]; simpl.
  - split; [intros _ p v [] | reflexivity].
  - destruct (find p vs) as [y|] eqn:E.
    + split; [discriminate|]. intros H.
      destruct (find_some _ _ E) as [I P].
      rewrite (H p y (or_introl eq_refl) I) in P. discriminate.
    + rewrite IH. split.
      * intros H p' v [<-|Hp] I; [exact (find_none _ _ E v I) | now apply H].
      * intros H p' v Hp I. apply H; auto.
Qed.

End Page.

(** X14.  Whatever classes the status element carries, after
    [updateStatus] it carries exactly one of 'active', 'inactive' and
    'listening', the one for the given type, and every other class it
    carried before, no more. *)
Theorem status_shows_one_class (type : string) (classes : list string) :
  exists classes',
    updateStatus type (Some classes) = Some classes'
    /\ filter (arrayIncludes statusClasses) classes' = [statusClassFor type]
    /\ forall c, arrayIncludes statusClasses c = false ->
                 (In c classes' <-> In c classes).
Proof.
  unfold updateStatus. eexists. split; [reflexivity|].
  pose proof (classListRemove_clean classes) as Clean.
  pose proof (statusClassFor_status type) as St.
  assert (N : arrayIncludes (classListRemove statusClasses classes)
                (statusClassFor type) = false).
  { destruct (arrayIncludes (classListRemove statusClasses classes)
                (statusClassFor type)) eqn:E; [|reflexivity].
    apply arrayIncludes_In in E.
    now destruct (filter_nil_not_in _ _ _ Clean St). }
  unfold classListAdd. rewrite N. split.
  - rewrite filter_app, Clean. cbn [filter app]. now rewrite St.
  - intros c Hc. rewrite in_app_iff, classListRemove_keeps by exact Hc.
    split; [intros [H|[H|[]]]; [exact H|] | auto].
    subst c. rewrite St in Hc. discriminate.
Qed.

(** X15.  The ElevenLabs key that the constructor loads is never empty.  A
    key of the environment that is set and is not the token
    '__ELEVENLABS_API_KEY__' wins over the local storage; otherwise the
    stored key is taken, and the placeholder when there is none.  So the
    ElevenLabs voice is used exactly when the loaded key differs from the
    placeholder, and with no key anywhere the browser voice speaks. *)
Theorem elevenLabs_key_loaded
    (mobile camera : bool) (sr : Support) (env stored : option string) :
  loadElevenLabsKey env stored <> ""
  /\ (forall k, env = Some k -> k <> "" -> k <> "__ELEVENLABS_API_KEY__" ->
                loadElevenLabsKey env stored = k)
  /\ (truthy env = false \/ env = Some "__ELEVENLABS_API_KEY__" ->
      forall s, stored = Some s -> s <> "" -> loadElevenLabsKey env stored = s)
  /\ elevenLabsKey (bootWithKeys mobile camera sr env stored)
     = loadElevenLabsKey env stored
  /\ (keyUsable (bootWithKeys mobile camera sr env stored) = true
      <-> loadElevenLabsKey env stored <> "your_elevenlabs_api_key_here")
  /\ (truthy env = false \/ env = Some "__ELEVENLABS_API_KEY__" ->
      truthy stored = false ->
      keyUsable (bootWithKeys mobile camera sr env stored) = false).
Proof.
  assert (NE : loadElevenLabsKey env stored <> "").
  { unfold loadElevenLabsKey, loadKey.
    destruct env as [k|], stored as [s|]; simpl;
      repeat match goal with
             | |- context [(?x =? ?y)%string] =>
                 destruct (String.eqb_spec x y); simpl
             end; congruence. }
  assert (K : elevenLabsKey (bootWithKeys mobile camera sr env stored)
              = loadElevenLabsKey env stored)
    by (unfold bootWithKeys; destruct mobile, sr; reflexivity).
  split; [exact NE|]. split; [|split; [|split; [exact K|split]]].
  - intros k -> H1 H2. unfold loadElevenLabsKey, loadKey, truthy.
    destruct (String.eqb_spec k ""); [contradiction|].
    destruct (String.eqb_spec k "__ELEVENLABS_API_KEY__"); [contradiction|].
    reflexivity.
  - intros H s -> Hs.
    assert (F : (if truthy (Some s) then s else "your_elevenlabs_api_key_here")
                = s)
      by (unfold truthy; destruct (String.eqb_spec s "");
          [contradiction | reflexivity]).
    unfold loadElevenLabsKey, loadKey.
    destruct H as [H| ->]; [|exact F].
    destruct env as [k|]; [|exact F]. rewrite H. exact F.
  - unfold keyUsable. rewrite K.
    apply String.eqb_neq in NE. rewrite NE. simpl.
    rewrite negb_true_iff. apply String.eqb_neq.
  - intros H S. unfold keyUsable. rewrite K.
    assert (E : loadElevenLabsKey env stored = "your_elevenlabs_api_key_here").
    { assert (F : match stored with
                  | Some s => if truthy stored then s
                              else "your_elevenlabs_api_key_here"
                  | None => "your_elevenlabs_api_key_here"
                  end = "your_elevenlabs_api_key_here")
        by (rewrite S; now destruct stored).
      unfold loadElevenLabsKey, loadKey.
      destruct H as [H| ->]; [|exact F].
      destruct env as [k|]; [|exact F]. rewrite H. exact F. }
    rewrite E. reflexivity.
Qed.

Lemma elevenLabs_key_loaded_witness :
  loadElevenLabsKey (Some "sk_env") (Some "sk_stored") = "sk_env"
  /\ loadElevenLabsKey (Some "__ELEVENLABS_API_KEY__") (Some "sk_stored")
     = "sk_stored"
  /\ keyUsable (bootWithKeys false true SrAvailable (Some "") None) = false.
Proof.
  destruct (elevenLabs_key_loaded false true SrAvailable
              (Some "sk_env") (Some "sk_stored")) as (_ & A & _).
  destruct (elevenLabs_key_loaded false true SrAvailable
              (Some "__ELEVENLABS_API_KEY__") (Some "sk_stored"))
    as (_ & _ & B & _).
  destruct (elevenLabs_key_loaded false true SrAvailable (Some "") None)
    as (_ & _ & _ & _ & _ & C).
  split; [|split].
  - apply (A "sk_env"); [reflexivity | discriminate | discriminate].
  - apply (B (or_intror eq_refl) "sk_stored"); [reflexivity | discriminate].
  - apply C; [left; reflexivity | reflexivity].
Defined.

(** X16.  The voice that [speakWithBrowser] picks is one of the voices of
    the browser and its language contains 'en'.  A voice named Samantha
    with such a language is picked before all others wherever it stands in
    the list; some voice is picked as soon as one with such a language is
    not a Microsoft voice; and none is picked when no language contains
    'en', so the utterance keeps the default voice. *)
Theorem best_voice_is_english (voices : list Voice) :
  (forall v, bestVoice voices = Some v ->
             In v voices /\ includes (voiceLang v) "en" = true)
  /\ ((exists v, In v voices /\ includes (voiceName v) "Samantha" = true
                 /\ includes (voiceLang v) "en" = true) ->
      exists v, bestVoice voices = Some v
                /\ includes (voiceName v) "Samantha" = true)
  /\ ((exists v, In v voices /\ includes (voiceLang v) "en" = true
                 /\ includes (voiceName v) "Microsoft" = false) ->
      bestVoice voices <> None)
  /\ ((forall v, In v voices -> includes (voiceLang v) "en" = false) ->
      bestVoice voices = None).
Proof.
  unfold bestVoice. split; [|split; [|split]].
  - intros v H. destruct (firstPreferred_some _ _ _ H) as [I [p [Hp P]]].
    split; [exact I|]. unfold voicePreferences in Hp. simpl in Hp.
    repeat (destruct Hp as [<-|Hp];
            [apply andb_true_iff in P; tauto|]).
    destruct Hp.
  - intros [v [I [N L]]].
    destruct (find_some_first
                (fun voice => includes (voiceName voice) "Samantha"
                              && includes (voiceLang voice) "en") voices)
      as [y [F [_ P]]].
    { exists v. split; [exact I|]. now rewrite N, L. }
    exists y. unfold voicePreferences. cbn [firstPreferred]. rewrite F.
    split; [reflexivity|]. apply andb_true_iff in P. tauto.
  - intros [v [I [L M]]] H.
    rewrite firstPreferred_none in H.
    specialize (H (fun voice => includes (voiceLang voice) "en"
                                && negb (includes (voiceName voice) "Microsoft")) v).
    simpl in H. rewrite L, M in H.
    assert (T : true && negb false = false) by (apply H; auto 10).
    discriminate.
  - intros H. apply firstPreferred_none. intros p v Hp I.
    specialize (H v I). unfold voicePreferences in Hp. simpl in Hp.
    repeat (destruct Hp as [<-|Hp];
            [rewrite H; simpl; now rewrite ?andb_false_r|]).
    destruct Hp.
Qed.

Lemma best_voice_is_english_witness :
  exists v,
    bestVoice [mkVoice "Google US English" "en-US";
               mkVoice "Microsoft David" "en-US";
               mkVoice "Samantha" "en-US"] = Some v
    /\ includes (voiceName v) "Samantha" = true.
Proof.
  apply (best_voice_is_english [mkVoice "Google US English" "en-US";
                                mkVoice "Microsoft David" "en-US";
                                mkVoice "Samantha" "en-US"]).
  exists (mkVoice "Samantha" "en-US"). simpl. auto.
Defined.

(** ** What the handlers do to timers, to the watchdog and to the recogniser *)

Section Footprints.

Lemma grows_trans (P : Task -> Prop) (a b c : list (N * Task)) :
  grows P a b -> grows P b c -> grows P a c.
Proof.
  intros H1 H2. induction H2 as [|l' d t H2 IH Pt]; [exact H1|].
  now apply grows_insert.
Qed.

Lemma count_insertTimer (d : N) (t : Task) (l : list (N * Task)) :
  length (filter (fun dt => isWatchdog (snd dt)) (insertTimer d t l))
  = length (filter (fun dt => isWatchdog (snd dt)) l)
    + (if isWatchdog t then 1 else 0).
Proof.
  induction l as [|[d' t'] r IH]; cbn [insertTimer].
  - cbn [filter snd]. destruct (isWatchdog t); reflexivity.
  - destruct (d' <=? d)%N; cbn [filter snd].
    + destruct (isWatchdog t'); cbn [length]; rewrite IH; lia.
    + destruct (isWatchdog t), (isWatchdog t'); cbn [length]; lia.
Qed.

Lemma Forall_insertTimer (Q : N * Task -> Prop) (d : N) (t : Task)
    (l : list (N * Task)) :
  Q (d, t) -> Forall Q l -> Forall Q (insertTimer d t l).
Proof.
  intros Qt H. induction H as [|[d' t'] r Hx Hr IH]; cbn [insertTimer].
  - constructor; [exact Qt | constructor].
  - destruct (d' <=? d)%N; constructor; auto.
Qed.

Lemma grows_count_interval (l l' : list (N * Task)) :
  grows notIntervalTask l l' ->
  length (filter (fun dt => isWatchdog (snd dt)) l')
  = length (filter (fun dt => isWatchdog (snd dt)) l).
Proof.
  intros H. induction H as [|l' d t H IH Pt]; [reflexivity|].
  rewrite count_insertTimer, IH. unfold notIntervalTask in Pt.
  rewrite Pt. lia.
Qed.

Lemma grows_weaken (P Q : Task -> Prop) (l l' : list (N * Task)) :
  (forall t, P t -> Q t) -> grows P l l' -> grows Q l l'.
Proof.
  intros PQ H. induction H as [|l' d t H IH Pt];
    [apply grows_refl | apply grows_insert; auto].
Qed.

Lemma grows_count (l l' : list (N * Task)) :
  grows notWatchdogTask l l' ->
  length (filter (fun dt => isWatchdog (snd dt)) l')
  = length (filter (fun dt => isWatchdog (snd dt)) l).
Proof.
  intros H. apply grows_count_interval.
  apply (grows_weaken notWatchdogTask); [|exact H].
  intros t Pt. unfold notIntervalTask. destruct t; auto; discriminate Pt.
Qed.

Lemma grows_Forall (l l' : list (N * Task)) :
  grows notWatchdogTask l l' ->
  Forall notWatchdogTimer l -> Forall notWatchdogTimer l'.
Proof.
  intros H F. induction H as [|l' d t H IH Pt]; [exact F|].
  apply Forall_insertTimer; [exact Pt | exact IH].
Qed.

(** *** Timers, flag and browser *)

Lemma tame_keep (P : Task -> Prop) (w x x' : World) :
  timers x' = timers x ->
  mobileRestartInterval x' = mobileRestartInterval x ->
  mobileUA x' = mobileUA x ->
  tameAt P w x -> tameAt P w x'.
Proof.
  unfold tameAt. intros -> -> ->. exact (fun H => H).
Qed.

Lemma tame_refl (P : Task -> Prop) (w : World) : tameAt P w w.
Proof. repeat split. apply grows_refl. Qed.

Lemma tame_setTimeout (P : Task -> Prop) (w x : World) (d : N) (t : Task) :
  P t -> tameAt P w x -> tameAt P w (setTimeout d t x).
Proof.
  intros Pt (H1 & H2 & H3). repeat split; try assumption.
  unfold setTimeout. change (timers (set_timers ?l _)) with l.
  now apply grows_insert.
Qed.

Lemma tame_set_speechQueue (P : Task -> Prop) (w x : World) v :
  tameAt P w x -> tameAt P w (set_speechQueue v x).
Proof. apply tame_keep; reflexivity. Qed.

Lemma tame_set_currentAudio (P : Task -> Prop) (w x : World) v :
  tameAt P w x -> tameAt P w (set_currentAudio v x).
Proof. apply tame_keep; reflexivity. Qed.

Lemma tame_set_isPlaying (P : Task -> Prop) (w x : World) v :
  tameAt P w x -> tameAt P w (set_isPlaying v x).
Proof. apply tame_keep; reflexivity. Qed.

Lemma tame_set_isListening (P : Task -> Prop) (w x : World) v :
  tameAt P w x -> tameAt P w (set_isListening v x).
Proof. apply tame_keep; reflexivity. Qed.

Lemma tame_set_continuousListening (P : Task -> Prop) (w x : World) v :
  tameAt P w x -> tameAt P w (set_continuousListening v x).
Proof. apply tame_keep; reflexivity. Qed.

Lemma tame_set_hasStarted (P : Task -> Prop) (w x : World) v :
  tameAt P w x -> tameAt P w (set_hasStarted v x).
Proof. apply tame_keep; reflexivity. Qed.

Lemma tame_set_recState (P : Task -> Prop) (w x : World) v :
  tameAt P w x -> tameAt P w (set_recState v x).
Proof. apply tame_keep; reflexivity. Qed.

Lemma tame_set_playing (P : Task -> Prop) (w x : World) v :
  tameAt P w x -> tameAt P w (set_playing v x).
Proof. apply tame_keep; reflexivity. Qed.

Lemma tame_set_nextAudio (P : Task -> Prop) (w x : World) v :
  tameAt P w x -> tameAt P w (set_nextAudio v x).
Proof. apply tame_keep; reflexivity. Qed.

Lemma tame_set_synth (P : Task -> Prop) (w x : World) v :
  tameAt P w x -> tameAt P w (set_synth v x).
Proof. apply tame_keep; reflexivity. Qed.

Lemma tame_set_ttsPending (P : Task -> Prop) (w x : World) v :
  tameAt P w x -> tameAt P w (set_ttsPending v x).
Proof. apply tame_keep; reflexivity. Qed.

Lemma tame_set_queries (P : Task -> Prop) (w x : World) v :
  tameAt P w x -> tameAt P w (set_queries v x).
Proof. apply tame_keep; reflexivity. Qed.

Lemma tame_set_now (P : Task -> Prop) (w x : World) v :
  tameAt P w x -> tameAt P w (set_now v x).
Proof. apply tame_keep; reflexivity. Qed.

Lemma tame_set_log (P : Task -> Prop) (w x : World) v :
  tameAt P w x -> tameAt P w (set_log v x).
Proof. apply tame_keep; reflexivity. Qed.

Lemma tame_emit (P : Task -> Prop) (w x : World) (a : Action) :
  tameAt P w x -> tameAt P w (emit a x).
Proof. apply tame_keep; reflexivity. Qed.

Lemma tame_recognition_stop (P : Task -> Prop) (w x : World) :
  tameAt P w x -> tameAt P w (recognition_stop x).
Proof.
  unfold recognition_stop. intros H.
  destruct (recState x); apply tame_emit; [|apply tame_set_recState|]; exact H.
Qed.

Lemma tame_stopAllAudio (P : Task -> Prop) (w x : World) :
  tameAt P w x -> tameAt P w (stopAllAudio x).
Proof.
  unfold stopAllAudio. intros H. cbv zeta.
  apply tame_set_isPlaying, tame_emit, tame_emit, tame_set_synth.
  destruct (currentAudio x); [|exact H].
  apply tame_set_currentAudio, tame_emit, tame_set_playing, H.
Qed.

Ltac tame_task := reflexivity.

Ltac tame_set :=
  match goal with
  | |- tameAt _ _ (emit _ _) => apply tame_emit
  | |- tameAt _ _ (set_speechQueue _ _) => apply tame_set_speechQueue
  | |- tameAt _ _ (set_currentAudio _ _) => apply tame_set_currentAudio
  | |- tameAt _ _ (set_isPlaying _ _) => apply tame_set_isPlaying
  | |- tameAt _ _ (set_isListening _ _) => apply tame_set_isListening
  | |- tameAt _ _ (set_continuousListening _ _) => apply tame_set_continuousListening
  | |- tameAt _ _ (set_hasStarted _ _) => apply tame_set_hasStarted
  | |- tameAt _ _ (set_recState _ _) => apply tame_set_recState
  | |- tameAt _ _ (set_playing _ _) => apply tame_set_playing
  | |- tameAt _ _ (set_nextAudio _ _) => apply tame_set_nextAudio
  | |- tameAt _ _ (set_synth _ _) => apply tame_set_synth
  | |- tameAt _ _ (set_ttsPending _ _) => apply tame_set_ttsPending
  | |- tameAt _ _ (set_queries _ _) => apply tame_set_queries
  | |- tameAt _ _ (set_now _ _) => apply tame_set_now
  | |- tameAt _ _ (set_log _ _) => apply tame_set_log
  end.

Ltac tame_peel :=
  cbv zeta;
  repeat
    match goal with
    | H : tameAt ?P ?w ?x |- tameAt ?P ?w ?x => exact H
    | |- tameAt _ ?w ?w => apply tame_refl
    | |- tameAt _ _ (setTimeout _ _ _) =>
        apply tame_setTimeout; [tame_task|]
    | |- tameAt _ _ (recognition_stop _) => apply tame_recognition_stop
    | |- tameAt _ _ (stopAllAudio _) => apply tame_stopAllAudio
    | |- tameAt _ _ (if ?c then _ else _) => destruct c
    | |- tameAt _ _ (match ?c with _ => _ end) => destruct c
    | |- tameAt _ _ _ => tame_set
    end.

Lemma tame_speak (w x : World) (text : string) :
  tameAt notWatchdogTask w x -> tameAt notWatchdogTask w (speak text x).
Proof. intros H. unfold speak. tame_peel. Qed.

Lemma tame_speakWithBrowser (w x : World) (text : string) :
  tameAt notWatchdogTask w x ->
  tameAt notWatchdogTask w (speakWithBrowser text x).
Proof. intros H. unfold speakWithBrowser. tame_peel. Qed.

Lemma tame_speakQueued (w x : World) :
  tameAt notWatchdogTask w x -> tameAt notWatchdogTask w (speakQueued x).
Proof. intros H. unfold speakQueued. tame_peel. Qed.

Lemma tame_speakResume (w x : World) (text : string) :
  tameAt notWatchdogTask w x -> tameAt notWatchdogTask w (speakResume text x).
Proof.
  intros H. unfold speakResume. destruct (keyUsable x).
  - tame_peel.
  - apply tame_speakQueued, tame_speakWithBrowser, H.
Qed.

Lemma tame_ttsResolved (w x : World) (i : nat) (ok : bool) :
  tameAt notWatchdogTask w x -> tameAt notWatchdogTask w (ttsResolved i ok x).
Proof.
  intros H. unfold ttsResolved.
  destruct (nth_error (ttsPending x) i); [|exact H].
  destruct ok; cbv zeta.
  - apply tame_speakQueued. tame_peel.
  - apply tame_speakQueued, tame_speakWithBrowser. tame_peel.
Qed.

Lemma tame_afterPlayback (w x : World) :
  tameAt notWatchdogTask w x -> tameAt notWatchdogTask w (afterPlayback x).
Proof. intros H. unfold afterPlayback. tame_peel. Qed.

Lemma tame_queryResolved (w x : World) (answer : option string) :
  tameAt notWatchdogTask w x ->
  tameAt notWatchdogTask w (queryResolved answer x).
Proof.
  intros H. unfold queryResolved. cbv zeta.
  destruct answer; apply tame_speak; tame_peel.
Qed.

Lemma tame_handleVoiceCommand (w x : World) (command : string) :
  tameAt notWatchdogTask w x ->
  tameAt notWatchdogTask w (handleVoiceCommand command x).
Proof.
  intros H. unfold handleVoiceCommand. cbv zeta.
  destruct (includes (toLowerCase command) "help"); [now apply tame_speak|].
  destruct (includes (toLowerCase command) "stop"
            || includes (toLowerCase command) "quiet");
    [now apply tame_stopAllAudio|].
  destruct (cameraReady x); [|now apply tame_speak].
  unfold askAboutScene. tame_peel.
Qed.

Lemma tame_recognition_onresult (w x : World) (isFinal : bool) (text : string) :
  tameAt notWatchdogTask w x ->
  tameAt notWatchdogTask w (recognition_onresult isFinal text x).
Proof.
  intros H. unfold recognition_onresult.
  destruct isFinal; [|exact H]. cbv zeta.
  destruct (acceptsTranscript (trim text)); [|exact H].
  now apply tame_handleVoiceCommand, tame_recognition_stop.
Qed.

Lemma tame_recognition_onerror (w x : World) (error : string) :
  tameAt notWatchdogTask w x ->
  tameAt notWatchdogTask w (recognition_onerror error x).
Proof.
  intros H. unfold recognition_onerror. cbv zeta.
  destruct (error =? "no-speech")%string.
  - destruct (negb (isPlaying (set_isListening false x)));
      [apply tame_speak|]; tame_peel.
  - destruct (error =? "network")%string; [apply tame_speak|]; tame_peel.
Qed.

Lemma tame_recognition_onend (w x : World) :
  tameAt notWatchdogTask w x -> tameAt notWatchdogTask w (recognition_onend x).
Proof. intros H. unfold recognition_onend. tame_peel. Qed.

Lemma tame_startApp (w x : World) :
  tameAt notWatchdogTask w x -> tameAt notWatchdogTask w (startApp x).
Proof.
  intros H. unfold startApp. cbv zeta.
  match goal with |- tameAt _ _ (if ?c then _ else _) => destruct c end;
    repeat (apply tame_setTimeout; [reflexivity|]); now apply tame_speak.
Qed.

Lemma tame_handleStartButtonClick (w x : World) :
  tameAt notWatchdogTask w x ->
  tameAt notWatchdogTask w (handleStartButtonClick x).
Proof.
  intros H. unfold handleStartButtonClick.
  destruct (hasStarted x); [exact H|]. apply tame_startApp. tame_peel.
Qed.

Lemma tame_handleTouchControl (w x : World) :
  tameAt notWatchdogTask w x ->
  tameAt notWatchdogTask w (handleTouchControl x).
Proof.
  intros H. unfold handleTouchControl.
  destruct (isPlaying x); [now apply tame_stopAllAudio | exact H].
Qed.

(** Every event that the browser delivers is handled without a task of the
    watchdog being set. *)
Lemma deliver_tame (e : ExtEvent) (w w' : World) :
  deliver e w = Some w' -> tameAt notWatchdogTask w w'.
Proof.
  destruct e; cbn [deliver]; intros H;
    repeat match type of H with
           | (if ?c then _ else _) = _ => destruct c; [|discriminate H]
           | match ?c with _ => _ end = _ => destruct c; [|discriminate H]
           end;
    injection H as <-.
  - apply tame_handleTouchControl, tame_handleStartButtonClick, tame_refl.
  - apply tame_handleTouchControl, tame_refl.
  - unfold recognition_onstart. tame_peel.
  - apply tame_recognition_onresult, tame_refl.
  - apply tame_recognition_onerror. tame_peel.
  - apply tame_recognition_onend. tame_peel.
  - unfold audio_onended. apply tame_afterPlayback. tame_peel.
  - unfold audio_onerror. tame_peel.
  - unfold utterance_onend. apply tame_afterPlayback. tame_peel.
  - unfold utterance_onerror. tame_peel.
  - apply tame_ttsResolved, tame_refl.
  - apply tame_queryResolved, tame_refl.
Qed.

End Footprints.

Section Quiet.

Lemma tame_set_recognition (P : Task -> Prop) (w x : World) v :
  tameAt P w x -> tameAt P w (set_recognition v x).
Proof. apply tame_keep; reflexivity. Qed.

Lemma quiet_keep (w x x' : World) :
  recognition x' = recognition x ->
  recState x' = recState x ->
  recCalls x' = recCalls x ->
  isListening x' = isListening x ->
  quietAt w x -> quietAt w x'.
Proof.
  unfold quietAt. intros -> -> -> -> H. exact H.
Qed.

Lemma quiet_set_speechQueue (w x : World) v :
  quietAt w x -> quietAt w (set_speechQueue v x).
Proof. apply quiet_keep; reflexivity. Qed.

Lemma quiet_set_currentAudio (w x : World) v :
  quietAt w x -> quietAt w (set_currentAudio v x).
Proof. apply quiet_keep; reflexivity. Qed.

Lemma quiet_set_isPlaying (w x : World) v :
  quietAt w x -> quietAt w (set_isPlaying v x).
Proof. apply quiet_keep; reflexivity. Qed.

Lemma quiet_set_continuousListening (w x : World) v :
  quietAt w x -> quietAt w (set_continuousListening v x).
Proof. apply quiet_keep; reflexivity. Qed.

Lemma quiet_set_hasStarted (w x : World) v :
  quietAt w x -> quietAt w (set_hasStarted v x).
Proof. apply quiet_keep; reflexivity. Qed.

Lemma quiet_set_playing (w x : World) v :
  quietAt w x -> quietAt w (set_playing v x).
Proof. apply quiet_keep; reflexivity. Qed.

Lemma quiet_set_nextAudio (w x : World) v :
  quietAt w x -> quietAt w (set_nextAudio v x).
Proof. apply quiet_keep; reflexivity. Qed.

Lemma quiet_set_synth (w x : World) v :
  quietAt w x -> quietAt w (set_synth v x).
Proof. apply quiet_keep; reflexivity. Qed.

Lemma quiet_set_ttsPending (w x : World) v :
  quietAt w x -> quietAt w (set_ttsPending v x).
Proof. apply quiet_keep; reflexivity. Qed.

Lemma quiet_set_queries (w x : World) v :
  quietAt w x -> quietAt w (set_queries v x).
Proof. apply quiet_keep; reflexivity. Qed.

Lemma quiet_set_timers (w x : World) v :
  quietAt w x -> quietAt w (set_timers v x).
Proof. apply quiet_keep; reflexivity. Qed.

Lemma quiet_set_now (w x : World) v :
  quietAt w x -> quietAt w (set_now v x).
Proof. apply quiet_keep; reflexivity. Qed.

Lemma quiet_emit (w x : World) (a : Action) :
  isRecCall a = false -> quietAt w x -> quietAt w (emit a x).
Proof.
  intros A. apply quiet_keep; try reflexivity.
  unfold recCalls, emit. change (log (set_log ?l _)) with l.
  now apply filter_snoc.
Qed.

Lemma quiet_setTimeout (w x : World) (d : N) (t : Task) :
  quietAt w x -> quietAt w (setTimeout d t x).
Proof. unfold setTimeout. apply quiet_set_timers. Qed.

Ltac quiet_set :=
  match goal with
  | |- quietAt _ (emit _ _) => apply quiet_emit; [reflexivity|]
  | |- quietAt _ (setTimeout _ _ _) => apply quiet_setTimeout
  | |- quietAt _ (set_speechQueue _ _) => apply quiet_set_speechQueue
  | |- quietAt _ (set_currentAudio _ _) => apply quiet_set_currentAudio
  | |- quietAt _ (set_isPlaying _ _) => apply quiet_set_isPlaying
  | |- quietAt _ (set_continuousListening _ _) => apply quiet_set_continuousListening
  | |- quietAt _ (set_hasStarted _ _) => apply quiet_set_hasStarted
  | |- quietAt _ (set_playing _ _) => apply quiet_set_playing
  | |- quietAt _ (set_nextAudio _ _) => apply quiet_set_nextAudio
  | |- quietAt _ (set_synth _ _) => apply quiet_set_synth
  | |- quietAt _ (set_ttsPending _ _) => apply quiet_set_ttsPending
  | |- quietAt _ (set_queries _ _) => apply quiet_set_queries
  | |- quietAt _ (set_timers _ _) => apply quiet_set_timers
  | |- quietAt _ (set_now _ _) => apply quiet_set_now
  end.

Ltac quiet_peel :=
  cbv zeta;
  repeat
    match goal with
    | H : quietAt ?w ?x |- quietAt ?w ?x => exact H
    | |- quietAt _ (if ?c then _ else _) => destruct c
    | |- quietAt _ (match ?c with _ => _ end) => destruct c
    | |- quietAt _ _ => quiet_set
    end.

Lemma quiet_stopAllAudio (w x : World) :
  quietAt w x -> quietAt w (stopAllAudio x).
Proof. intros H. unfold stopAllAudio. quiet_peel. Qed.

Lemma quiet_speak (w x : World) (text : string) :
  quietAt w x -> quietAt w (speak text x).
Proof.
  intros H R. destruct (H R) as (r & _).
  revert R. change (quietAt w (speak text x)).
  unfold speak. rewrite r. cbn [andb]. cbv zeta.
  destruct (isPlaying x); [quiet_peel|].
  apply quiet_setTimeout, quiet_set_isPlaying, quiet_stopAllAudio.
  quiet_peel.
Qed.

Lemma quiet_speakWithBrowser (w x : World) (text : string) :
  quietAt w x -> quietAt w (speakWithBrowser text x).
Proof. intros H. unfold speakWithBrowser. quiet_peel. Qed.

Lemma quiet_speakQueued (w x : World) :
  quietAt w x -> quietAt w (speakQueued x).
Proof. intros H. unfold speakQueued. quiet_peel. Qed.

Lemma quiet_speakResume (w x : World) (text : string) :
  quietAt w x -> quietAt w (speakResume text x).
Proof.
  intros H. unfold speakResume. destruct (keyUsable x).
  - quiet_peel.
  - apply quiet_speakQueued, quiet_speakWithBrowser, H.
Qed.

Lemma quiet_ttsResolved (w x : World) (i : nat) (ok : bool) :
  quietAt w x -> quietAt w (ttsResolved i ok x).
Proof.
  intros H. unfold ttsResolved.
  destruct (nth_error (ttsPending x) i); [|exact H].
  destruct ok; cbv zeta.
  - apply quiet_speakQueued. quiet_peel.
  - apply quiet_speakQueued, quiet_speakWithBrowser. quiet_peel.
Qed.

Lemma quiet_afterPlayback (w x : World) :
  quietAt w x -> quietAt w (afterPlayback x).
Proof. intros H. unfold afterPlayback. quiet_peel. Qed.

Lemma quiet_queryResolved (w x : World) (answer : option string) :
  quietAt w x -> quietAt w (queryResolved answer x).
Proof.
  intros H. unfold queryResolved. cbv zeta.
  destruct answer; apply quiet_speak; quiet_peel.
Qed.

Lemma quiet_startApp (w x : World) :
  quietAt w x -> quietAt w (startApp x).
Proof.
  intros H. unfold startApp. cbv zeta.
  match goal with |- quietAt _ (if ?c then _ else _) => destruct c end;
    repeat apply quiet_setTimeout; now apply quiet_speak.
Qed.

Lemma quiet_handleStartButtonClick (w x : World) :
  quietAt w x -> quietAt w (handleStartButtonClick x).
Proof.
  intros H. unfold handleStartButtonClick.
  destruct (hasStarted x); [exact H|]. apply quiet_startApp. quiet_peel.
Qed.

Lemma quiet_handleTouchControl (w x : World) :
  quietAt w x -> quietAt w (handleTouchControl x).
Proof.
  intros H. unfold handleTouchControl.
  destruct (isPlaying x); [now apply quiet_stopAllAudio | exact H].
Qed.

(** Without a recogniser object [startContinuousListening] does nothing,
    and so do the restarts that end in it. *)
Lemma startContinuousListening_without_recogniser (x : World) :
  recognition x = false ->
  startContinuousListening x = x /\ onEndRestart x = x /\ watchdogRetry x = x.
Proof.
  intros R.
  assert (E : startContinuousListening x = x)
    by (unfold startContinuousListening; now rewrite R).
  unfold onEndRestart, watchdogRetry. rewrite E.
  split; [reflexivity|].
  split; match goal with |- (if ?c then _ else _) = _ => now destruct c end.
Qed.

Lemma recStarted_idle (w : World) : recState w = RecIdle -> recStarted w = false.
Proof. unfold recStarted. now intros ->. Qed.

(** In a world without a recogniser, with the recogniser idle, no event
    that the browser can deliver touches the recogniser. *)
Lemma deliver_quiet (e : ExtEvent) (w w' : World) :
  recState w = RecIdle -> deliver e w = Some w' -> quietAt w w'.
Proof.
  intros I. pose proof (recStarted_idle w I) as S.
  assert (Q : quietAt w w) by (intros R; now repeat split).
  destruct e; cbn [deliver]; rewrite ?S; intros H; try discriminate H;
    repeat match type of H with
           | (if ?c then _ else _) = _ => destruct c; [|discriminate H]
           | match ?c with _ => _ end = _ => destruct c; [|discriminate H]
           end;
    injection H as <-.
  - apply quiet_handleTouchControl, quiet_handleStartButtonClick, Q.
  - apply quiet_handleTouchControl, Q.
  - unfold audio_onended. apply quiet_afterPlayback. quiet_peel.
  - unfold audio_onerror. quiet_peel.
  - unfold utterance_onend. apply quiet_afterPlayback. quiet_peel.
  - unfold utterance_onerror. quiet_peel.
  - apply quiet_ttsResolved, Q.
  - apply quiet_queryResolved, Q.
Qed.

End Quiet.

(** ** Invariants of every run *)

Section Runs.

Lemma run_invariant (I : World -> Prop) :
  (forall ev w w', I w -> step ev w = Some w' -> I w') ->
  forall evs w w', I w -> run evs w = Some w' -> I w'.
Proof.
  intros S evs. induction evs as [|ev r IH]; intros w w' Hw H; simpl in H.
  - now injection H as <-.
  - destruct (step ev w) as [w1|] eqn:E; [|discriminate].
    exact (IH w1 w' (S ev w w1 Hw E) H).
Qed.

Lemma step_Ext_deliver (dt : N) (e : ExtEvent) (w w' : World) :
  step (Ext dt e) w = Some w' -> deliver e (set_now (now w + dt)%N w) = Some w'.
Proof.
  cbn [step]. destruct (timers w) as [|[d t] r]; [exact (fun H => H)|].
  destruct (d <? now w + dt)%N; [discriminate | exact (fun H => H)].
Qed.

Lemma step_Fire_task (w w' : World) :
  step Fire w = Some w' ->
  exists d t r,
    timers w = (d, t) :: r
    /\ w' = runTask t (set_now (N.max (now w) d) (set_timers r w)).
Proof.
  cbn [step]. destruct (timers w) as [|[d t] r]; [discriminate|].
  intros H. injection H as <-. now exists d, t, r.
Qed.

(** *** The page without speech recognition *)

Lemma deaf_after (w x : World) :
  deafInv w -> timers x = timers w -> recognition x = recognition w ->
  recState x = recState w -> recCalls x = recCalls w ->
  isListening x = isListening w ->
  forall x', quietAt x x' -> tameAt notWatchdogTask x x' -> deafInv x'.
Proof.
  intros (R & S & C & L & F) Et Er Es Ec El x' Q (G & _).
  rewrite <- Er in R. destruct (Q R) as (Q1 & Q2 & Q3 & Q4).
  unfold deafInv. rewrite Q1, Q2, Q3, Q4, Es, Ec, El, S, C, L.
  repeat split. apply (grows_Forall _ _ G). now rewrite Et.
Qed.

Lemma step_deaf (ev : Event) (w w' : World) :
  deafInv w -> step ev w = Some w' -> deafInv w'.
Proof.
  intros D H. destruct ev as [|dt e].
  - destruct (step_Fire_task w w' H) as (d & t & r & Et & ->).
    destruct D as (R & S & C & L & F). rewrite Et in F.
    inversion F as [|? ? Ft Fr]; subst.
    set (w1 := set_now (N.max (now w) d) (set_timers r w)).
    assert (D1 : deafInv w1) by (unfold deafInv; repeat split; assumption).
    assert (Q : quietAt w1 w1) by (intros _; now repeat split).
    assert (T : tameAt notWatchdogTask w1 w1) by apply tame_refl.
    assert (R1 : recognition w1 = false) by exact R.
    destruct (startContinuousListening_without_recogniser w1 R1)
      as (E1 & E2 & _).
    destruct t; try discriminate Ft; cbn [runTask].
    + apply (deaf_after w1 w1 D1); try reflexivity;
        [now apply quiet_speakResume | now apply tame_speakResume].
    + apply (deaf_after w1 w1 D1); try reflexivity;
        [now apply quiet_speak | now apply tame_speak].
    + exact D1.
    + now rewrite E1.
    + now rewrite E2.
  - apply step_Ext_deliver in H.
    set (w1 := set_now (now w + dt)%N w) in *.
    assert (S1 : recState w1 = RecIdle) by (destruct D as (_ & S & _); exact S).
    apply (deaf_after w w1 D); try reflexivity;
      [exact (deliver_quiet e w1 w' S1 H) | exact (deliver_tame e w1 w' H)].
Qed.

Lemma boot_deaf (mobile camera : bool) (sr : Support) (key : string) :
  sr <> SrAvailable -> deafInv (boot mobile camera sr key).
Proof.
  intros N. destruct sr; [now destruct N | |];
    destruct mobile; vm_compute; repeat split;
    repeat (constructor; try reflexivity).
Qed.

(** *** The watchdog *)

Lemma watchdog_after (mobile : bool) (w x x' : World) :
  watchdogInv mobile w ->
  watchdogsPending x = watchdogsPending w ->
  mobileRestartInterval x = mobileRestartInterval w ->
  mobileUA x = mobileUA w ->
  (mobile = false -> Forall notWatchdogTimer (timers x)) ->
  tameAt notWatchdogTask x x' -> watchdogInv mobile x'.
Proof.
  intros (U & C & D) Ec Ef Eu F (G & G2 & G3).
  unfold watchdogInv, watchdogsPending in *.
  rewrite (grows_count _ _ G), G2, G3, Ec, Ef, Eu.
  repeat split; try assumption.
  - now destruct (D H).
  - apply (grows_Forall _ _ G). now apply F.
Qed.

Lemma startContinuousListening_watchdog (mobile : bool) (x : World) :
  watchdogInv mobile x -> watchdogInv mobile (startContinuousListening x).
Proof.
  intros (U & C & D). unfold startContinuousListening.
  destruct (negb (recognition x)); [exact (conj U (conj C D))|].
  destruct (isListening x); [exact (conj U (conj C D))|].
  unfold recognition_start, watchdogInv, watchdogsPending in *.
  destruct x as [q ca ip rc il cl mi hs rs pl na sy tp qs tm nw lg mu cr ss ek].
  cbn in U, C, D. subst mu.
  destruct rs, mobile, mi; cbn;
    (split; [reflexivity|]);
    (split;
     [ unfold setInterval, setTimeout; cbn;
       rewrite ?count_insertTimer, ?C; reflexivity
     | intros M; try discriminate M; try exact (D M);
       destruct (D M) as [X _]; discriminate X ]).
Qed.

Lemma tame_watchdogTick (x : World) :
  tameAt notIntervalTask x (watchdogTick x).
Proof.
  unfold watchdogTick.
  destruct (continuousListening x && negb (isPlaying x)); [|apply tame_refl].
  cbv zeta. apply tame_setTimeout; [reflexivity|].
  destruct (isListening x); [|apply tame_refl].
  apply tame_set_isListening, tame_recognition_stop, tame_refl.
Qed.

Lemma tame_watchdogRestart (x : World) :
  tameAt notIntervalTask x (watchdogRestart x).
Proof.
  unfold watchdogRestart, recognition_start.
  destruct (continuousListening x && negb (isPlaying x) && negb (isListening x));
    [|apply tame_refl].
  destruct (recState x).
  - apply tame_set_isListening, tame_emit, tame_set_recState, tame_refl.
  - apply tame_setTimeout; [reflexivity|]. apply tame_emit, tame_refl.
  - apply tame_setTimeout; [reflexivity|]. apply tame_emit, tame_refl.
Qed.

Lemma watchdog_after_phone (x x' : World) :
  mobileUA x = true ->
  watchdogsPending x = (if mobileRestartInterval x then 1 else 0) ->
  tameAt notIntervalTask x x' -> watchdogInv true x'.
Proof.
  intros U C (G & G2 & G3).
  unfold watchdogInv, watchdogsPending in *.
  rewrite (grows_count_interval _ _ G), G2, G3.
  repeat split; try assumption; discriminate.
Qed.

Lemma head_not_watchdog (mobile : bool) (w : World) (d : N) (t : Task)
    (r : list (N * Task)) :
  watchdogInv mobile w -> timers w = (d, t) :: r -> isWatchdogTask t = true ->
  mobile = true.
Proof.
  intros (_ & _ & D) Et Ft. destruct mobile; [reflexivity|].
  destruct (D eq_refl) as (_ & F). rewrite Et in F.
  inversion F as [|? ? Fh _]; subst. unfold notWatchdogTimer in Fh.
  simpl in Fh. congruence.
Qed.

Lemma step_watchdog (mobile : bool) (ev : Event) (w w' : World) :
  watchdogInv mobile w -> step ev w = Some w' -> watchdogInv mobile w'.
Proof.
  intros I H. destruct ev as [|dt e].
  - destruct (step_Fire_task w w' H) as (d & t & r & Et & ->).
    set (w1 := set_now (N.max (now w) d) (set_timers r w)).
    pose proof I as (U & C & D).
    unfold watchdogsPending in C. rewrite Et in C. cbn [filter snd] in C.
    destruct (isWatchdogTask t) eqn:Ft.
    + (* a task of the watchdog: the browser is mobile *)
      pose proof (head_not_watchdog mobile w d t r I Et Ft) as ->.
      destruct t; try discriminate Ft; cbn [runTask isWatchdog] in *.
      * (* the interval callback fires and is queued again *)
        destruct (mobileRestartInterval w) eqn:Ef; cbn [length] in C;
          [|discriminate C].
        injection C as C.
        apply (watchdog_after_phone (setInterval 20000 TWatchdog w1)).
        -- exact U.
        -- unfold watchdogsPending, setInterval, setTimeout. cbn.
           now rewrite count_insertTimer, C, Ef.
        -- apply tame_watchdogTick.
      * (* its delayed restart *)
        apply (watchdog_after_phone w1);
          [exact U | exact C | apply tame_watchdogRestart].
      * (* its retry *)
        assert (I1 : watchdogInv true w1)
          by (unfold watchdogInv, watchdogsPending; cbn;
              split; [exact U | split; [exact C | discriminate]]).
        unfold watchdogRetry.
        match goal with |- context [if ?c then _ else _] => destruct c end;
          [now apply startContinuousListening_watchdog | exact I1].
    + (* any other task *)
      assert (Fw : isWatchdog t = false) by (destruct t; auto; discriminate).
      rewrite Fw in C.
      assert (I1 : watchdogInv mobile w1).
      { unfold watchdogInv, watchdogsPending. cbn.
        split; [exact U | split; [exact C|]].
        intros M. destruct (D M) as (Dm & F). split; [exact Dm|].
        rewrite Et in F. now inversion F. }
      assert (F1 : mobile = false -> Forall notWatchdogTimer (timers w1))
        by (intros M; now destruct I1 as (_ & _ & D1); destruct (D1 M)).
      destruct t; try discriminate Ft; cbn [runTask].
      * apply (watchdog_after mobile w1 w1 _ I1); try reflexivity;
          [exact F1 | apply tame_speakResume, tame_refl].
      * apply (watchdog_after mobile w1 w1 _ I1); try reflexivity;
          [exact F1 | apply tame_speak, tame_refl].
      * exact I1.
      * now apply startContinuousListening_watchdog.
      * unfold onEndRestart.
        match goal with |- context [if ?c then _ else _] => destruct c end;
          [now apply startContinuousListening_watchdog | exact I1].
  - apply step_Ext_deliver in H.
    apply (watchdog_after mobile w (set_now (now w + dt)%N w) w' I);
      try reflexivity; [|exact (deliver_tame e _ w' H)].
    intros M. destruct I as (_ & _ & D). now destruct (D M).
Qed.

Lemma boot_watchdog (mobile camera : bool) (sr : Support) (key : string) :
  watchdogInv mobile (boot mobile camera sr key).
Proof.
  destruct mobile, sr; vm_compute; repeat split;
    repeat (constructor; try reflexivity).
Qed.

End Runs.

(** X17.  In a browser without speech recognition no run of the page ever
    touches the recogniser: whatever the user does and whatever the timers,
    the audio and the requests do, no call to [start] or [stop] is made, the
    microphone stays closed, [isListening] stays clear and no task of the
    watchdog is ever pending. *)
Theorem no_recogniser_no_listening
    (mobile camera : bool) (sr : Support) (key : string)
    (evs : list Event) (w : World) :
  sr <> SrAvailable ->
  run evs (boot mobile camera sr key) = Some w ->
  recCalls w = []
  /\ micArmed w = false
  /\ isListening w = false
  /\ recognition w = false
  /\ Forall notWatchdogTimer (timers w).
Proof.
  intros N H.
  destruct (run_invariant deafInv step_deaf evs _ w
              (boot_deaf mobile camera sr key N) H) as (R & S & C & L & F).
  repeat split; try assumption. unfold micArmed. now rewrite S.
Qed.

Lemma no_recogniser_no_listening_witness :
  recCalls (after (launchRun ++ [Ext 2000 SynthEnd; Fire; Fire; Fire]) desktopDeaf)
  = []
  /\ micArmed (after (launchRun ++ [Ext 2000 SynthEnd; Fire; Fire; Fire])
                desktopDeaf) = false.
Proof.
  unfold desktopDeaf.
  assert (R : run (launchRun ++ [Ext 2000 SynthEnd; Fire; Fire; Fire])
                (boot false true SrMissing "your_elevenlabs_api_key_here")
              = Some (after (launchRun ++ [Ext 2000 SynthEnd; Fire; Fire; Fire])
                        (boot false true SrMissing
                           "your_elevenlabs_api_key_here")))
    by (vm_compute; reflexivity).
  assert (N : SrMissing <> SrAvailable) by discriminate.
  pose proof (no_recogniser_no_listening _ _ _ _ _ _ N R) as H.
  exact (conj (proj1 H) (proj1 (proj2 H))).
Defined.

(** X18.  The watchdog is installed once at most.  In every run of the
    page, at most one firing of the interval callback is pending, and one
    is pending exactly while [mobileRestartInterval] is set; in a desktop
    browser the flag is never set and no task of the watchdog is ever
    pending. *)
Theorem watchdog_installed_once
    (mobile camera : bool) (sr : Support) (key : string)
    (evs : list Event) (w : World) :
  run evs (boot mobile camera sr key) = Some w ->
  watchdogsPending w <= 1
  /\ (watchdogsPending w = 1 <-> mobileRestartInterval w = true)
  /\ (mobile = false ->
      mobileRestartInterval w = false
      /\ Forall notWatchdogTimer (timers w)).
Proof.
  intros H.
  destruct (run_invariant (watchdogInv mobile) (step_watchdog mobile) evs _ w
              (boot_watchdog mobile camera sr key) H) as (U & C & D).
  rewrite C. destruct (mobileRestartInterval w);
    (split; [lia | split; [split; (reflexivity || discriminate || lia) | exact D]]).
Qed.

Lemma watchdog_installed_once_witness :
  watchdogsPending (after (phoneQuestionRun ++ [Fire; Ext 100 RecEnd; Fire]) phone)
  <= 1
  /\ mobileRestartInterval (after launchRun desktop) = false.
Proof.
  unfold phone, desktop.
  assert (R1 : run (phoneQuestionRun ++ [Fire; Ext 100 RecEnd; Fire])
                 (boot true true SrAvailable "your_elevenlabs_api_key_here")
               = Some (after (phoneQuestionRun ++ [Fire; Ext 100 RecEnd; Fire])
                         (boot true true SrAvailable
                            "your_elevenlabs_api_key_here")))
    by (vm_compute; reflexivity).
  assert (R2 : run launchRun
                 (boot false true SrAvailable "your_elevenlabs_api_key_here")
               = Some (after launchRun
                         (boot false true SrAvailable
                            "your_elevenlabs_api_key_here")))
    by (vm_compute; reflexivity).
  pose proof (watchdog_installed_once _ _ _ _ _ _ R1) as H1.
  pose proof (watchdog_installed_once _ _ _ _ _ _ R2) as H2.
  exact (conj (proj1 H1) (proj1 (proj2 (proj2 H2) eq_refl))).
Defined.

(** ** A whole turn *)

Section Turn.




End Turn.



(** ** The queue at the start of a playback, the start click, restarts *)

(** X20.  The end of [speak] does not keep the order of the queue.  When a
    playback has just started ([isPlaying] is set) and texts are waiting,
    [speak] takes the first of them out and calls itself with it 100 ms
    later; that call finds [isPlaying] set and puts the text back at the
    end.  So each start of a playback moves the oldest waiting text behind
    the newer ones. *)
Theorem queue_rotated_at_playback_start
    (nextText : string) (rest : list string) (w : World) :
  isPlaying w = true -> speechQueue w = nextText :: rest ->
  In (TSpeak nextText) (map snd (timers (speakQueued w)))
  /\ speechQueue (speakQueued w) = rest
  /\ speechQueue (runTask (TSpeak nextText) (speakQueued w)) = rest ++ [nextText]
  /\ timers (runTask (TSpeak nextText) (speakQueued w)) = timers (speakQueued w)
  /\ log (runTask (TSpeak nextText) (speakQueued w)) = log w.
Proof.
  intros P Q. unfold speakQueued. rewrite Q.
  split; [unfold setTimeout; cbn; apply insertTimer_In|].
  split; [reflexivity|].
  cbn [runTask]. unfold speak.
  change (isPlaying (setTimeout 100 (TSpeak nextText) (set_speechQueue rest w)))
    with (isPlaying w).
  rewrite P. repeat split.
Qed.

Lemma queue_rotated_at_playback_start_witness :
  speechQueue (speakAll ["first"; "second"] desktop) = ["first"; "second"]
  /\ speechQueue (runTask (TSpeak "first")
                    (speakQueued (speakAll ["first"; "second"] desktop)))
     = ["second"; "first"].
Proof.
  split; [reflexivity|].
  destruct (queue_rotated_at_playback_start "first" ["second"]
              (speakAll ["first"; "second"] desktop) eq_refl eq_refl)
    as (_ & _ & H & _).
  exact H.
Defined.

Lemma insertTimer_keeps (d : N) (t t' : Task) (l : list (N * Task)) :
  In t (map snd l) -> In t (map snd (insertTimer d t' l)).
Proof.
  induction l as [|[d' u] r IH]; [intros []|].
  cbn [insertTimer]. destruct (d' <=? d)%N; cbn [map snd In] in *; tauto.
Qed.

Lemma willSpeak_setTimeout (text : string) (d : N) (t : Task) (x : World) :
  willSpeak text x -> willSpeak text (setTimeout d t x).
Proof.
  intros [H|H]; [left; exact H | right].
  unfold setTimeout. cbn. now apply insertTimer_keeps.
Qed.

(** X21.  The click on the start button reaches the touch handler of the
    document after [startApp] has run.  [startApp] has just set [isPlaying]
    for the welcome, so the touch handler stops all audio: after the click
    [isPlaying] is clear although the welcome is on its way to the speaker,
    and the app counts as started. *)
Theorem start_click_clears_isPlaying (w w' : World) :
  hasStarted w = false ->
  deliver StartButtonClick w = Some w' ->
  isPlaying w' = false
  /\ willSpeak welcomeText w'
  /\ hasStarted w' = true
  /\ In TStartCamera (map snd (timers w')).
Proof.
  intros H D. cbn [deliver] in D. injection D as <-.
  unfold handleStartButtonClick. rewrite H.
  set (x := set_hasStarted true w).
  assert (P : isPlaying (startApp x) = true).
  { unfold startApp. cbv zeta.
    destruct (speak_frame welcomeText x) as (P & _).
    match goal with |- isPlaying (if ?c then _ else _) = _ => destruct c end;
      exact P. }
  assert (S : willSpeak welcomeText (startApp x)
              /\ hasStarted (startApp x) = true
              /\ In TStartCamera (map snd (timers (startApp x)))).
  { unfold startApp. cbv zeta.
    pose proof (speak_willSpeak welcomeText x) as W.
    destruct (speak_frame welcomeText x) as (_ & _ & _ & Hs & _).
    apply (willSpeak_setTimeout _ 2000%N TStartCamera) in W.
    assert (T : In TStartCamera
                  (map snd (timers (setTimeout 2000 TStartCamera
                                      (speak welcomeText x)))))
      by (unfold setTimeout; cbn; apply insertTimer_In).
    match goal with |- context [if ?c then _ else _] => destruct c end.
    - split; [now apply willSpeak_setTimeout|]. split; [exact Hs|].
      unfold setTimeout at 1. cbn. now apply insertTimer_keeps.
    - split; [exact W | split; [exact Hs | exact T]]. }
  unfold handleTouchControl. rewrite P.
  destruct (stopAllAudio_fields (startApp x)) as (F1 & _ & _ & F4 & F5 & _).
  destruct (stopAllAudio_frame (startApp x)) as (_ & G2 & _).
  destruct S as (S1 & S2 & S3).
  split; [exact F1|]. unfold willSpeak. rewrite F4, F5, G2.
  repeat split; assumption.
Qed.

Lemma start_click_clears_isPlaying_witness :
  isPlaying (after [Ext 1000 StartButtonClick] phone) = false
  /\ willSpeak welcomeText (after [Ext 1000 StartButtonClick] phone).
Proof.
  assert (D : deliver StartButtonClick (set_now 1000%N phone)
              = Some (after [Ext 1000 StartButtonClick] phone))
    by (vm_compute; reflexivity).
  destruct (start_click_clears_isPlaying (set_now 1000%N phone) _ eq_refl D)
    as (H1 & H2 & _).
  split; assumption.
Defined.

(** X22.  [stopRecognition] cancels no timeout.  A restart of listening
    that was set before, by [startApp] or by the end of a playback, is
    still pending afterwards, and when it fires
    [startContinuousListening] switches the continuous mode and listening
    back on. *)
Theorem pending_restart_undoes_stop (w : World) :
  recognition w = true ->
  In TStartContinuousListening (map snd (timers w)) ->
  In TStartContinuousListening (map snd (timers (stopRecognition w)))
  /\ continuousListening (stopRecognition w) = false
  /\ continuousListening
       (runTask TStartContinuousListening (stopRecognition w)) = true
  /\ isListening
       (runTask TStartContinuousListening (stopRecognition w)) = true.
Proof.
  intros R T.
  assert (K : forall l : list (N * Task),
            In TStartContinuousListening (map snd l) ->
            In TStartContinuousListening
              (map snd (filter (fun dt => negb (isWatchdog (snd dt))) l))).
  { intros l. induction l as [|[d t] r IH]; [auto|].
    cbn [map snd In filter]. intros [->|H]; [cbn; auto|].
    destruct (negb (isWatchdog t)); cbn [map snd In]; auto. }
  cbn [runTask].
  unfold stopRecognition, startContinuousListening, recognition_start,
    recognition_stop, clearInterval.
  destruct w as [q ca ip rc il cl mi hs rs pl na sy tp qs tm nw lg mu cr ss ek].
  cbn in R, T. subst rc.
  destruct il, mi, rs, mu; cbn; repeat split; auto.
Qed.

Lemma pending_restart_undoes_stop_witness :
  continuousListening (stopRecognition desktop) = false
  /\ continuousListening
       (runTask TStartContinuousListening (stopRecognition desktop)) = true.
Proof.
  destruct (pending_restart_undoes_stop desktop eq_refl) as (_ & H2 & H3 & _).
  - vm_compute. auto.
  - split; assumption.
Defined.

(** X23.  Once a start of recognition has been refused, every refusal is
    followed by one more start, one second after recognition has ended:
    [n] refusals give [n] starts, the page says nothing about it and comes
    back each time to the state it had. *)
Theorem refused_start_retried_forever (n : nat) (w : World) :
  refusedStart w ->
  exists w',
    run (deniedRounds n) w = Some w'
    /\ refusedStart w'
    /\ log w' = log w ++ repeat RecStart n
    /\ speechQueue w' = speechQueue w.
Proof. exact (denied_rounds_repeat n w). Qed.

Lemma refused_start_retried_forever_witness :
  exists w',
    run (deniedRounds 5) (after deniedRun desktop) = Some w'
    /\ log w' = log (after deniedRun desktop) ++ repeat RecStart 5.
Proof.
  destruct (refused_start_retried_forever 5 (after deniedRun desktop))
    as (w' & R & _ & L & _); [vm_compute; repeat split|].
  exists w'. split; assumption.
Defined.
